(** * Luchanso/webp: the client-side WebP converter

  A shallow embedding of [src/app/components/quality-selector.tsx]
  (the [QualitySelector] widget and the [AutoWebPConverter] component)
  together with the properties of its specification.

  Numbers.  JavaScript numbers are doubles.  The quantities met here are
  - the quality percentage, an integer in [0..100] (the slider moves in
    steps of 5 and the initial value is 85): a [Z];
  - byte counts ([File.size], [Blob.size]), non-negative safe integers:
    an [N];
  - [Math.min(quality, 99.9)] and [Math.max(quality / 100 - 0.001, 0)]:
    kept as exact rationals in [Q];
  - [Math.floor(Math.log(bytes) / Math.log(1024))]: the exact integer
    logarithm [N.log2 bytes / 10], which is what the double computation
    returns on byte counts up to 1024^4 (in particular at every power of
    1024 and at its two neighbours); on far larger counts, just below
    2^50, the doubles give a larger index, out of the unit table like
    the exact one;
  - [bytes / Math.pow(k, i)]: exact in a double, since the divisor is a
    power of two; [toFixed(2)] rounds that exact value to hundredths,
    the larger one on a tie. *)

From Stdlib Require Import ZArith NArith QArith Qminmax List String Ascii Bool Lia Lqa.
From Stdlib Require Import DecimalString Permutation.
Import ListNotations.

Close Scope Q_scope.
Local Open Scope string_scope.

(** ** Quality control (lines 11-35) *)

Module QualityControl.

(** [Math.min(quality, 99.9)] *)
Definition displayValue (quality : Z) : Q :=
  Qmin (inject_Z quality) (999 # 10)%Q.

(** [quality < 50 ? 'Low' : quality < 80 ? 'Average' : 'High'] *)
Definition tierLabel (quality : Z) : string :=
  if (quality <? 50)%Z then "Low"
  else if (quality <? 80)%Z then "Average"
  else "High".

End QualityControl.

(** ** The encoder's quality argument (line 109) *)

Module Encoder.

(** [Math.max(quality / 100 - 0.001, 0)] *)
Definition effectiveQuality (quality : Z) : Q :=
  Qmax (inject_Z quality / (100 # 1) - (1 # 1000))%Q 0%Q.

End Encoder.

(** ** Size formatting (lines 224-232) *)

Module Format.

Definition k : N := 1024.

Definition sizes : list string := ["B"; "KB"; "MB"; "GB"].

(** [Math.floor(Math.log(bytes) / Math.log(k))], for [bytes > 0]. *)
Definition unitIndex (bytes : N) : nat :=
  N.to_nat (N.log2 bytes / 10).

(** [(num / den).toFixed(2)], as a number of hundredths: the integer [n]
    with [n / 100] nearest to [num / den], the larger on a tie. *)
Definition toFixed2 (num den : N) : N :=
  ((200 * num + den) / (2 * den))%N.

Definition decimal (n : N) : string :=
  NilEmpty.string_of_uint (N.to_uint n).

(** [parseFloat(s) + ""] for the [toFixed(2)] string [s] of [h]
    hundredths: the shortest decimal, so trailing zeros are dropped. *)
Definition showHundredths (h : N) : string :=
  let q := (h / 100)%N in
  let r := (h mod 100)%N in
  if (r =? 0)%N then decimal q
  else if (r mod 10 =? 0)%N then decimal q ++ "." ++ decimal (r / 10)
  else decimal q ++ "." ++ decimal (r / 10) ++ decimal (r mod 10).

(** [sizes[i]] inside a string concatenation: a missing entry is
    [undefined], which concatenates as the text "undefined". *)
Definition unitText (i : nat) : string :=
  match nth_error sizes i with
  | Some u => u
  | None => "undefined"
  end.

Definition formatFileSize (bytes : N) : string :=
  if (bytes =? 0)%N then "0 B"
  else
    let i := unitIndex bytes in
    showHundredths (toFixed2 bytes (k ^ N.of_nat i)) ++ " " ++ unitText i.

End Format.

(** ** The download name (lines 398-400) *)

Module Download.

(** [s.split(sep)] for a one-character separator: the pieces between the
    separators, never an empty list. *)
Fixpoint split (sep : ascii) (s : string) : list string :=
  match s with
  | EmptyString => [EmptyString]
  | String c rest =>
      if Ascii.eqb c sep then EmptyString :: split sep rest
      else
        match split sep rest with
        | piece :: pieces => String c piece :: pieces
        | [] => [String c EmptyString]
        end
  end.

(** [`${name.split(".")[0]}.webp`] *)
Definition downloadName (name : string) : string :=
  match nth_error (split "." name) 0 with
  | Some base => base
  | None => "undefined"
  end ++ ".webp".

(** The name the specification describes: the original name with its
    final extension (the last dot and what follows it) removed, and
    [.webp] appended.  [stripExtension] keeps a name without a dot. *)
Fixpoint hasDot (s : string) : bool :=
  match s with
  | EmptyString => false
  | String c rest => Ascii.eqb c "." || hasDot rest
  end.

Fixpoint stripExtension (name : string) : string :=
  match name with
  | EmptyString => EmptyString
  | String c rest =>
      if Ascii.eqb c "." && negb (hasDot rest) then EmptyString
      else String c (stripExtension rest)
  end.

Definition specDownloadName (name : string) : string :=
  stripExtension name ++ ".webp".

End Download.

(** ** Jobs and the conversion pipeline (lines 60-127) *)

Module Pipeline.

(** What the component reads of a browser [File]. *)
Record File := mkFile { name : string; type : string; size : N }.

Inductive Status := Converting | Converted | Error.

Record ConvertedFile := mkConvertedFile {
  id : string;
  originalFile : File;
  originalType : string;
  status : Status;
  convertedUrl : option string;
  convertedSize : option N;
  error : option string
}.

(** [file.type.startsWith("image/")] *)
Definition isImage (file : File) : bool := prefix "image/" (type file).

(** How the promise of [convertToWebP] settles: resolved with
    [{ url, size }], or rejected with a value whose [message] is given
    ([None] when the value is not an [Error]). *)
Inductive Outcome :=
| Resolved (url : string) (size : N)
| Rejected (message : option string).

(** The browser's side of one conversion: whether the image loads,
    whether drawing throws, whether a 2d context exists, what
    [canvas.toBlob(cb, type, quality)] hands to its callback (the blob's
    size, or nothing), and the URL that [URL.createObjectURL(blob)]
    returns. *)
Record Platform := mkPlatform {
  imageLoads : bool;
  context2d : bool;
  drawThrows : option (option string);
  toBlob : string -> Q -> option N;
  objectURL : string
}.

Record Conversion := mkConversion {
  outcome : Outcome;
  encoderCalls : list (string * Q)
}.

Definition convertToWebP (file : File) (quality : Z) (p : Platform) : Conversion :=
  if negb (isImage file) then
    mkConversion (Rejected (Some "Unsupported file format")) []
  else if negb (imageLoads p) then
    mkConversion (Rejected (Some "Failed to load image")) []
  else if negb (context2d p) then
    mkConversion (Rejected (Some "Failed to get drawing context")) []
  else
    match drawThrows p with
    | Some thrown => mkConversion (Rejected thrown) []
    | None =>
        let factor := Encoder.effectiveQuality quality in
        mkConversion
          match toBlob p "image/webp" factor with
          | Some blobSize => Resolved (objectURL p) blobSize
          | None => Rejected (Some "Failed to convert image to WebP")
          end
          [("image/webp", factor)]
    end.

End Pipeline.

(** ** The file registry and its handlers (lines 70-75, 129-256, 325-330)

  [files] is React state.  Every [setFiles] call of the component builds
  a new array (a spread, a [map], a [filter] or a literal), so each one
  changes [files]; the effect of lines 248-256 lists [files] as its
  dependency, so React runs the cleanup of the previous render, which
  revokes every URL of the previous array, each time [files] changes and
  once more at unmount.  [setFiles] below is one state update together
  with the commit that follows it: React renders between two updates, as
  it does after each click, change or drop event.  Updates made before
  React renders again share one commit and one cleanup; the revocations
  of such a schedule are fewer than those counted here. *)

Module Registry.
Import Pipeline.
Local Open Scope list_scope.

(** One call of [Math.random().toString(36)] is one draw from [rng]. *)
Record World := mkWorld {
  files : list ConvertedFile;
  quality : Z;
  rng : nat -> string;
  randomCalls : nat;
  revoked : list string;          (* [URL.revokeObjectURL] calls, oldest first *)
  started : list (File * Z)       (* [convertToWebP] calls, oldest first *)
}.

Definition initial (rng : nat -> string) : World :=
  mkWorld [] 85%Z rng 0 [] [].

(** [if (f.convertedUrl)]: a missing or empty string is falsy. *)
Definition heldUrl (f : ConvertedFile) : list string :=
  match convertedUrl f with
  | Some url => if url =? "" then [] else [url]
  | None => []
  end.

(** [files.forEach((f) => { if (f.convertedUrl) URL.revokeObjectURL(f.convertedUrl) })] *)
Definition revokeAll (fs : list ConvertedFile) (w : World) : World :=
  mkWorld (files w) (quality w) (rng w) (randomCalls w)
          (revoked w ++ flat_map heldUrl fs) (started w).

Definition setFiles (update : list ConvertedFile -> list ConvertedFile) (w : World) : World :=
  let previous := files w in
  revokeAll previous
    (mkWorld (update previous) (quality w) (rng w) (randomCalls w)
             (revoked w) (started w)).

Definition setQuality (q : Z) (w : World) : World :=
  mkWorld (files w) q (rng w) (randomCalls w) (revoked w) (started w).

(** [Math.random().toString(36).substr(2, 9)] *)
Definition newId (draw : string) : string := substring 2 9 draw.

Definition newJob (draw : string) (file : File) : ConvertedFile :=
  mkConvertedFile (newId draw) file (type file) Converting None None None.

(** [imageFiles.map((file) => ({ id: ..., ... }))], the [n]-th draw first. *)
Fixpoint createJobs (rng : nat -> string) (n : nat) (imageFiles : list File)
  : list ConvertedFile :=
  match imageFiles with
  | [] => []
  | file :: rest => newJob (rng n) file :: createJobs rng (S n) rest
  end.

(** The two updaters of lines 155-179, the [catch] folded in. *)
Definition settled (o : Outcome) (f : ConvertedFile) : ConvertedFile :=
  match o with
  | Resolved url size =>
      mkConvertedFile (id f) (originalFile f) (originalType f) Converted
                      (Some url) (Some size) (error f)
  | Rejected message =>
      mkConvertedFile (id f) (originalFile f) (originalType f) Error
                      (convertedUrl f) (convertedSize f)
                      (Some match message with
                            | Some m => m
                            | None => "Unknown error"
                            end)
  end.

Definition updateJob (target : string) (o : Outcome) (prev : list ConvertedFile)
  : list ConvertedFile :=
  map (fun f => if id f =? target then settled o f else f) prev.

(** An [async] function body between two suspension points. *)
Inductive Async :=
| Return
| SetFiles (update : list ConvertedFile -> list ConvertedFile) (next : Async)
| AwaitConvert (file : File) (quality : Z) (resume : Outcome -> Async).

(** [for (const newFile of newFiles) { try { ... await ... } catch ... }] *)
Fixpoint forOf (newFiles : list ConvertedFile) (quality : Z) : Async :=
  match newFiles with
  | [] => Return
  | newFile :: rest =>
      AwaitConvert (originalFile newFile) quality
        (fun o => SetFiles (updateJob (id newFile) o) (forOf rest quality))
  end.

Definition imageFilesOf (selectedFiles : list File) : list File :=
  filter isImage selectedFiles.

Definition newFilesOf (selectedFiles : list File) (w : World) : list ConvertedFile :=
  createJobs (rng w) (randomCalls w) (imageFilesOf selectedFiles).

(** [handleFilesSelected]: the world after the ids were drawn, and the
    rest of the body. *)
Definition handleFilesSelected (selectedFiles : list File) (w : World) : World * Async :=
  let imageFiles := imageFilesOf selectedFiles in
  if (List.length imageFiles =? 0)%nat then (w, Return)
  else
    let newFiles := newFilesOf selectedFiles w in
    (mkWorld (files w) (quality w) (rng w) (randomCalls w + List.length imageFiles)
             (revoked w) (started w),
     SetFiles (fun prev => prev ++ newFiles) (forOf newFiles (quality w))).

(** A handler suspended at its [await]. *)
Record Task := mkTask {
  awaitedFile : File;
  awaitedQuality : Z;
  resume : Outcome -> Async
}.

(** [convertToWebP(file, q)] is entered: the decode begins. *)
Definition convertStarted (file : File) (q : Z) (w : World) : World :=
  mkWorld (files w) (quality w) (rng w) (randomCalls w) (revoked w)
          (started w ++ [(file, q)]).

(** Run a body up to its next suspension point. *)
Fixpoint run (body : Async) (w : World) : World * option Task :=
  match body with
  | Return => (w, None)
  | SetFiles update next => run next (setFiles update w)
  | AwaitConvert file q resume =>
      (convertStarted file q w, Some (mkTask file q resume))
  end.

(** [removeFile] *)
Definition removeFile (target : string) (w : World) : World :=
  let fileToRemove := find (fun f => id f =? target) (files w) in
  let w1 :=
    match fileToRemove with
    | Some f => revokeAll [f] w
    | None => w
    end in
  setFiles (filter (fun f => negb (id f =? target))) w1.

(** The [Clean All] button. *)
Definition cleanAll (w : World) : World :=
  setFiles (fun _ => []) (revokeAll (files w) w).

(** Unmounting runs the cleanup of the last render. *)
Definition unmount (w : World) : World := revokeAll (files w) w.

End Registry.

(** ** The session: the registry and the handlers in flight *)

Module Session.
Import Pipeline Registry.
Local Open Scope list_scope.

Record State := mkState { world : World; tasks : list Task }.

Inductive Action :=
| Select (selectedFiles : list File)       (* a file-input change or a drop *)
| Settle (n : nat) (p : Platform)          (* the [n]-th pending promise settles *)
| Remove (target : string)
| CleanAll
| SetQuality (q : Z).

Definition spawn (r : World * option Task) (others : list Task) : State :=
  match snd r with
  | Some t => mkState (fst r) (others ++ [t])
  | None => mkState (fst r) others
  end.

Definition continue (r : World * option Task) (before after : list Task) : State :=
  match snd r with
  | Some t => mkState (fst r) (before ++ t :: after)
  | None => mkState (fst r) (before ++ after)
  end.

Definition perform (a : Action) (s : State) : State :=
  match a with
  | Select selectedFiles =>
      let '(w, body) := handleFilesSelected selectedFiles (world s) in
      spawn (run body w) (tasks s)
  | Settle n p =>
      match nth_error (tasks s) n with
      | Some t =>
          let o := outcome (convertToWebP (awaitedFile t) (awaitedQuality t) p) in
          continue (run (resume t o) (world s)) (firstn n (tasks s)) (skipn (S n) (tasks s))
      | None => s
      end
  | Remove target => mkState (removeFile target (world s)) (tasks s)
  | CleanAll => mkState (cleanAll (world s)) (tasks s)
  | SetQuality q => mkState (setQuality q (world s)) (tasks s)
  end.

Definition performAll (script : list Action) (s : State) : State :=
  fold_left (fun s a => perform a s) script s.

Definition start (rng : nat -> string) : State := mkState (initial rng) [].

End Session.

(** ** Sample inputs *)

Module Samples.
Import Pipeline.

Definition photo : File := mkFile "photo.final.png" "image/png" 2048.
Definition notes : File := mkFile "notes.txt" "text/plain" 12.
Definition scan : File := mkFile "scan.jpg" "image/jpeg" 4096.

(** Renderings of [Math.random().toString(36)]. *)
Definition sampleRng (n : nat) : string :=
  match n with
  | 0 => "0.4fzyo82mvyr"
  | 1 => "0.k3x9q0w7c1d"
  | _ => "0.b81z0pq22m4"
  end.

(** Two different draws that agree on their characters 2..10. *)
Definition collidingRng (n : nat) : string :=
  match n with
  | 0 => "0.4fzyo82mvyr"
  | _ => "0.4fzyo82mvq7"
  end.

(** A browser on which the conversion succeeds. *)
Definition workingPlatform : Platform :=
  mkPlatform true true None (fun _ _ => Some 1234%N) "blob:0".

End Samples.

(** ** Notions used to state the properties *)

Module Observations.
Import Format Pipeline Registry Session Samples.

(** [endsWith suffix s]: [s] ends in [suffix]. *)
Fixpoint endsWith (suffix s : string) : bool :=
  (s =? suffix) ||
  match s with
  | EmptyString => false
  | String _ rest => endsWith suffix rest
  end.

(** [usesUnit bytes]: the rendering of [bytes] is a number, a space and
    one of the four units. *)
Definition usesUnit (bytes : N) : Prop :=
  exists h u, In u sizes /\ formatFileSize bytes = showHundredths h ++ " " ++ u.

Local Open Scope list_scope.

(** *** What a script of user and browser events creates *)

Definition createdByAction (a : Action) (s : State) : list ConvertedFile :=
  match a with
  | Select selectedFiles => newFilesOf selectedFiles (world s)
  | _ => []
  end.

(** Every job created while [script] is performed from [s], oldest first. *)
Fixpoint createdBy (script : list Action) (s : State) : list ConvertedFile :=
  match script with
  | [] => []
  | a :: rest => createdByAction a s ++ createdBy rest (perform a s)
  end.

Definition drawsOfAction (a : Action) : nat :=
  match a with
  | Select selectedFiles => List.length (imageFilesOf selectedFiles)
  | _ => 0
  end.

(** [Sequential t jobs q]: the suspended handler [t] awaits the
    conversion of the first of [jobs]; whatever the outcome, resuming it
    applies that outcome to the registry and, if a job remains, starts
    the conversion of the next one and suspends again in the same way;
    after the last job it returns. *)
Fixpoint Sequential (t : Task) (jobs : list ConvertedFile) (q : Z) : Prop :=
  match jobs with
  | [] => False
  | job :: rest =>
      awaitedFile t = originalFile job /\
      awaitedQuality t = q /\
      forall (o : Outcome) (w : World),
        match rest with
        | [] => run (resume t o) w = (setFiles (updateJob (id job) o) w, None)
        | next :: _ =>
            exists t',
              run (resume t o) w
              = (convertStarted (originalFile next) q
                   (setFiles (updateJob (id job) o) w), Some t') /\
              Sequential t' rest q
        end
  end.

(** [allStartedAtOnce selectedFiles s]: when the handler of the selection
    first suspends, the conversion of every accepted file has been
    started. *)
Definition allStartedAtOnce (selectedFiles : list File) (s : State) : Prop :=
  map fst (started (world (perform (Select selectedFiles) s)))
  = map fst (started (world s)) ++ imageFilesOf selectedFiles.

(** How many times [URL.revokeObjectURL(url)] was called. *)
Definition releases (url : string) (w : World) : nat :=
  count_occ string_dec (revoked w) url.

(** *** Two sessions *)

(** The photo's job was removed while its conversion was in flight. *)
Definition removedInFlight : State :=
  performAll [Select [photo]; Remove "4fzyo82mv"] (start sampleRng).

(** The photo was converted and its job is in the registry. *)
Definition photoConverted : State :=
  performAll [Select [photo]; Settle 0 workingPlatform] (start sampleRng).

End Observations.

(** ** Notions for the states a session can reach *)

Module Invariants.
Import Pipeline Registry Session Observations.
Local Open Scope list_scope.

(** A job made from an accepted file. *)
Definition imageJob (j : ConvertedFile) : Prop :=
  isImage (originalFile j) = true /\ originalType j = type (originalFile j).

(** The fields of a job agree with its status. *)
Definition consistent (f : ConvertedFile) : Prop :=
  match status f with
  | Converting => convertedUrl f = None /\ convertedSize f = None /\ error f = None
  | Converted => (exists url, convertedUrl f = Some url) /\
                 (exists size, convertedSize f = Some size)
  | Error => exists message, error f = Some message
  end.

(** [Serves t jobs]: the suspended handler [t] awaits the first of
    [jobs], jobs of accepted files, and will convert them in turn. *)
Definition Serves (t : Task) (jobs : list ConvertedFile) : Prop :=
  (exists q, Sequential t jobs q) /\ Forall imageJob jobs.

(** The jobs that wait behind the awaited one. *)
Definition queued (queues : list (list ConvertedFile)) : nat :=
  list_sum (map (fun jobs => pred (List.length jobs)) queues).

(** [Tracked s queues]: the handlers in flight serve [queues], and every
    job created so far is either started or queued. *)
Definition Tracked (s : State) (queues : list (list ConvertedFile)) : Prop :=
  Forall2 Serves (tasks s) queues /\
  List.length (started (world s)) + queued queues = randomCalls (world s).

(** [Change w a after]: what action [a] may make of the registry of [w]. *)
Inductive Change (w : World) : Action -> list ConvertedFile -> Prop :=
| ChangeSelect selectedFiles :
    Change w (Select selectedFiles) (files w ++ newFilesOf selectedFiles w)
| ChangeSettle n p job q :
    imageJob job ->
    Change w (Settle n p)
           (updateJob (id job) (outcome (convertToWebP (originalFile job) q p)) (files w))
| ChangeNoTask n p : Change w (Settle n p) (files w)
| ChangeRemove target :
    Change w (Remove target) (filter (fun f => negb (id f =? target)%string) (files w))
| ChangeCleanAll : Change w CleanAll []
| ChangeQuality q : Change w (SetQuality q) (files w).

Definition isSelect (a : Action) : bool :=
  match a with
  | Select _ => true
  | _ => false
  end.

(** The browsers met by the settles of a script satisfy [good]. *)
Definition settlesOn (good : Platform -> Prop) (a : Action) : Prop :=
  match a with
  | Settle _ p => good p
  | _ => True
  end.

(** The outcome of the conversion of [job]'s file at quality [q] on the
    browser [p]. *)
Definition outcomeOf (q : Z) (turn : ConvertedFile * Platform) : Outcome :=
  outcome (convertToWebP (originalFile (fst turn)) q (snd turn)).

(** The registry after the outcomes of [turns] were applied in order. *)
Definition settleEach (q : Z) (turns : list (ConvertedFile * Platform))
           (fs : list ConvertedFile) : list ConvertedFile :=
  fold_left (fun fs turn => updateJob (id (fst turn)) (outcomeOf q turn) fs) turns fs.

(** What one of those outcomes does to one job. *)
Definition settleOne (q : Z) (f : ConvertedFile) (turn : ConvertedFile * Platform)
  : ConvertedFile :=
  if (id f =? id (fst turn))%string then settled (outcomeOf q turn) f else f.

(** [file.status === "converted" && file.convertedUrl] (line 391): the
    job's row shows its Download button. *)
Definition downloadShown (f : ConvertedFile) : bool :=
  match status f, convertedUrl f with
  | Converted, Some url => negb (url =? "")%string
  | _, _ => false
  end.

(** A converted job carries a URL that is not the empty string. *)
Definition downloadable (f : ConvertedFile) : Prop :=
  status f = Converted -> exists url, convertedUrl f = Some url /\ url <> ""%string.

(** The files of the jobs that wait behind the awaited ones. *)
Definition waiting (queues : list (list ConvertedFile)) : list File :=
  flat_map (fun jobs => map originalFile (tl jobs)) queues.

End Invariants.

(** * Properties *)

(** ** Quality control *)

Module QualityControlFacts.
Import QualityControl.

Lemma displayValue_small (quality : Z) :
  (quality <= 99)%Z -> (displayValue quality == inject_Z quality)%Q.
Proof.
  intros Hq. unfold displayValue. apply Q.min_l.
  unfold Qle. simpl. lia.
Qed.

Lemma displayValue_capped (quality : Z) :
  (displayValue quality <= 999 # 10)%Q.
Proof. unfold displayValue. apply Q.le_min_r. Qed.

(** C7. For a quality in 0..100 the tier label is "Low" below 50,
    "Average" from 50 to 79 and "High" from 80 on; the displayed value is
    the quality itself up to 99, never exceeds 99.9, and is 99.9 for
    quality 100. *)
Theorem tier_and_display (quality : Z) :
  (0 <= quality <= 100)%Z ->
  ((quality < 50)%Z -> tierLabel quality = "Low") /\
  ((50 <= quality < 80)%Z -> tierLabel quality = "Average") /\
  ((80 <= quality)%Z -> tierLabel quality = "High") /\
  (displayValue quality <= 999 # 10)%Q /\
  ((quality <= 99)%Z -> (displayValue quality == inject_Z quality)%Q) /\
  (quality = 100%Z -> (displayValue quality == 999 # 10)%Q).
Proof.
  intros _. unfold tierLabel.
  repeat split.
  - intros H. destruct (Z.ltb_spec quality 50); [reflexivity | lia].
  - intros H. destruct (Z.ltb_spec quality 50); [lia |].
    destruct (Z.ltb_spec quality 80); [reflexivity | lia].
  - intros H. destruct (Z.ltb_spec quality 50); [lia |].
    destruct (Z.ltb_spec quality 80); [lia | reflexivity].
  - apply displayValue_capped.
  - apply displayValue_small.
  - intros ->. reflexivity.
Qed.

Lemma tier_and_display_at_100 :
  (0 <= 100 <= 100)%Z /\
  tierLabel 100 = "High" /\ (displayValue 100 == 999 # 10)%Q.
Proof.
  split; [lia |].
  destruct (tier_and_display 100) as (_ & _ & Hhigh & _ & _ & Hcap); [lia |].
  split; [apply Hhigh; lia | apply Hcap; reflexivity].
Defined.

End QualityControlFacts.

(** ** The encoder's quality argument *)

Module EncoderFacts.
Import Encoder Pipeline Samples.
Local Open Scope list_scope.





End EncoderFacts.

(** ** Size formatting *)

Module FormatFacts.
Import Format Observations.

Lemma endsWith_cons (suffix : string) (c : ascii) (rest : string) :
  endsWith suffix (String c rest)
  = (String c rest =? suffix) || endsWith suffix rest.
Proof. reflexivity. Qed.

Lemma endsWith_self (s : string) : endsWith s s = true.
Proof.
  destruct s; [reflexivity |].
  rewrite endsWith_cons, String.eqb_refl. reflexivity.
Qed.

Lemma endsWith_append (suffix front : string) :
  endsWith suffix (front ++ suffix) = true.
Proof.
  induction front as [| c front IH].
  - apply endsWith_self.
  - change (String c front ++ suffix) with (String c (front ++ suffix)).
    rewrite endsWith_cons, IH. apply orb_true_r.
Qed.

Lemma eqb_length (s t : string) :
  (s =? t) = true -> String.length s = String.length t.
Proof. intros H. apply String.eqb_eq in H. now subst. Qed.

Lemma append_length (s t : string) :
  String.length (s ++ t) = String.length s + String.length t.
Proof. induction s; simpl; congruence. Qed.

Lemma append_assoc (s t u : string) : (s ++ t) ++ u = s ++ (t ++ u).
Proof. induction s; simpl; congruence. Qed.

(** A suffix no longer than [back] is looked for in [back] alone. *)
Lemma endsWith_short (suffix front back : string) :
  String.length suffix <= String.length back ->
  endsWith suffix (front ++ back) = endsWith suffix back.
Proof.
  intros Hlen. induction front as [| c front IH]; [reflexivity |].
  change (String c front ++ back) with (String c (front ++ back)).
  rewrite endsWith_cons, IH.
  destruct (String c (front ++ back) =? suffix) eqn:E; [| reflexivity].
  apply eqb_length in E. simpl in E. rewrite append_length in E. lia.
Qed.

Lemma unitIndex_spec (bytes : N) :
  (0 < bytes)%N ->
  (k ^ N.of_nat (unitIndex bytes) <= bytes
   /\ bytes < k ^ N.of_nat (S (unitIndex bytes)))%N.
Proof.
  intros Hpos. unfold unitIndex.
  rewrite Nat2N.inj_succ, N2Nat.id.
  destruct (N.log2_spec bytes Hpos) as [Hlo Hhi].
  set (l := N.log2 bytes) in *.
  assert (Hk : forall n, (k ^ n = 2 ^ (10 * n))%N).
  { intros n. rewrite N.pow_mul_r. reflexivity. }
  rewrite !Hk.
  pose proof (N.Div0.mul_div_le l 10) as Hd1.
  pose proof (N.mul_succ_div_gt l 10 ltac:(lia)) as Hd2.
  split.
  - eapply N.le_trans; [| exact Hlo].
    apply N.pow_le_mono_r; lia.
  - eapply N.lt_le_trans; [exact Hhi |].
    apply N.pow_le_mono_r; lia.
Qed.

Lemma unitIndex_small (bytes : N) :
  (0 < bytes < 1024 ^ 4)%N -> unitIndex bytes <= 3.
Proof.
  intros [Hpos Hlt]. unfold unitIndex.
  assert (Hlog : (N.log2 bytes < 40)%N).
  { apply N.log2_lt_pow2; [exact Hpos | exact Hlt]. }
  assert (N.log2 bytes / 10 <= 3)%N.
  { apply N.lt_succ_r. apply N.Div0.div_lt_upper_bound. simpl. lia. }
  lia.
Qed.

Lemma unitIndex_large (bytes : N) :
  (1024 ^ 4 <= bytes)%N -> 4 <= unitIndex bytes.
Proof.
  intros Hge. unfold unitIndex.
  assert (Hpos : (0 < bytes)%N).
  { eapply N.lt_le_trans; [| exact Hge]. reflexivity. }
  assert (Hlog : (40 <= N.log2 bytes)%N).
  { apply N.log2_le_pow2; [exact Hpos | exact Hge]. }
  assert (4 <= N.log2 bytes / 10)%N.
  { apply N.div_le_lower_bound; lia. }
  lia.
Qed.

Lemma toFixed2_nearest (num den : N) :
  (0 < den)%N ->
  (2 * den * toFixed2 num den <= 200 * num + den
   /\ 200 * num + den < 2 * den * (toFixed2 num den + 1))%N.
Proof.
  intros Hden. unfold toFixed2. split.
  - apply N.Div0.mul_div_le.
  - rewrite N.add_1_r. apply N.mul_succ_div_gt. lia.
Qed.

Lemma sizes_lookup (i : nat) :
  i <= 3 -> exists u, nth_error sizes i = Some u /\ In u sizes /\ unitText i = u.
Proof.
  intros Hi. unfold unitText.
  destruct i as [| [| [| [| i]]]]; simpl; try lia; eexists; intuition.
Qed.

Lemma sizes_missing (i : nat) :
  4 <= i -> nth_error sizes i = None /\ unitText i = "undefined".
Proof.
  intros Hi. unfold unitText.
  assert (H : nth_error sizes i = None) by (apply nth_error_None; simpl; lia).
  rewrite H. auto.
Qed.

Lemma k_pow_pos (i : nat) : (0 < k ^ N.of_nat i)%N.
Proof.
  assert (k ^ N.of_nat i <> 0)%N by (apply N.pow_nonzero; discriminate).
  lia.
Qed.

(** C6, on the code: one tebibyte is rendered as "1 undefined", which
    carries none of the units B, KB, MB, GB. *)
Lemma one_tebibyte_has_no_unit :
  formatFileSize (1024 ^ 4) = "1 undefined" /\ ~ usesUnit (1024 ^ 4).
Proof.
  split; [reflexivity |].
  intros (h & u & Hin & Heq).
  assert (Hends : endsWith u (formatFileSize (1024 ^ 4)) = true).
  { rewrite Heq.
    change (showHundredths h ++ " " ++ u) with (showHundredths h ++ (" " ++ u)).
    rewrite endsWith_short by (simpl; lia).
    apply (endsWith_append u " "). }
  simpl in Hin.
  destruct Hin as [<- | [<- | [<- | [<- | []]]]]; discriminate Hends.
Qed.

(** X21.  0, 1024, 1536 and 1048576 bytes are rendered "0 B",
    "1 KB", "1.5 KB" and "1 MB"; every byte count [b] below 1024^4 other
    than 0 is rendered as a number, a space and the unit [sizes[i]] with
    [1024^i <= b < 1024^(i+1)], the number being [b / 1024^i] rounded to
    the nearest hundredth (upwards on a tie) and printed without
    trailing zeros. *)
Theorem formatFileSize_below_tebibyte (bytes : N) :
  (bytes < 1024 ^ 4)%N ->
  formatFileSize 0 = "0 B" /\
  formatFileSize 1024 = "1 KB" /\
  formatFileSize 1536 = "1.5 KB" /\
  formatFileSize 1048576 = "1 MB" /\
  (bytes = 0%N -> formatFileSize bytes = "0 B") /\
  ((0 < bytes)%N ->
   exists (i : nat) (u : string) (h : N),
     nth_error sizes i = Some u /\
     (1024 ^ N.of_nat i <= bytes < 1024 ^ N.of_nat (S i))%N /\
     (2 * 1024 ^ N.of_nat i * h <= 200 * bytes + 1024 ^ N.of_nat i
      < 2 * 1024 ^ N.of_nat i * (h + 1))%N /\
     formatFileSize bytes = showHundredths h ++ " " ++ u).
Proof.
  intros Hlt. repeat (split; [reflexivity |]). split.
  - intros ->. reflexivity.
  - intros Hpos.
    destruct (sizes_lookup (unitIndex bytes)) as (u & Hnth & _ & Htext).
    { apply unitIndex_small. split; assumption. }
    exists (unitIndex bytes), u, (toFixed2 bytes (k ^ N.of_nat (unitIndex bytes))).
    split; [exact Hnth |].
    split; [apply (unitIndex_spec bytes Hpos) |].
    split; [apply toFixed2_nearest, k_pow_pos |].
    unfold formatFileSize.
    destruct (N.eqb_spec bytes 0) as [-> | _]; [lia |].
    cbv zeta. rewrite Htext. reflexivity.
Qed.

Lemma formatFileSize_at_1536 :
  (1536 < 1024 ^ 4)%N /\ formatFileSize 1536 = "1.5 KB".
Proof.
  split; [reflexivity |].
  apply (formatFileSize_below_tebibyte 1536). reflexivity.
Defined.

(** C10. For a byte count below 1024^4 the unit index, computed when the
    count is not 0, is a valid index of the four-entry table, and the
    result ends in one of "B", "KB", "MB", "GB"; from 1024^4 on the index
    is at least 4, the lookup finds nothing, and the result ends in
    "undefined" and in none of the units. *)
Theorem unit_lookup_in_bounds_iff (bytes : N) :
  ((bytes < 1024 ^ 4)%N ->
   ((0 < bytes)%N -> unitIndex bytes < List.length sizes) /\
   exists u, In u sizes /\ endsWith u (formatFileSize bytes) = true) /\
  ((1024 ^ 4 <= bytes)%N ->
   List.length sizes <= unitIndex bytes /\
   nth_error sizes (unitIndex bytes) = None /\
   endsWith "undefined" (formatFileSize bytes) = true /\
   forall u, In u sizes -> endsWith u (formatFileSize bytes) = false).
Proof.
  split.
  - intros Hlt. split.
    + intros Hpos.
      assert (unitIndex bytes <= 3) by (apply unitIndex_small; split; assumption).
      simpl. lia.
    + unfold formatFileSize.
      destruct (N.eqb_spec bytes 0) as [-> | Hne].
      * exists "B". split; [simpl; auto | reflexivity].
      * destruct (sizes_lookup (unitIndex bytes)) as (u & _ & Hin & Htext).
        { apply unitIndex_small. lia. }
        exists u. split; [exact Hin |].
        cbv zeta. rewrite Htext.
        rewrite <- append_assoc. apply endsWith_append.
  - intros Hge.
    pose proof (unitIndex_large bytes Hge) as Hidx.
    destruct (sizes_missing (unitIndex bytes) Hidx) as [Hnone Htext].
    split; [simpl; lia |]. split; [exact Hnone |].
    unfold formatFileSize.
    destruct (N.eqb_spec bytes 0) as [-> | _]; [exfalso; apply Hge; reflexivity |].
    cbv zeta. rewrite Htext.
    split.
    + rewrite <- append_assoc. apply endsWith_append.
    + intros u Hin.
      rewrite endsWith_short.
      * simpl in Hin. destruct Hin as [<- | [<- | [<- | [<- | []]]]]; reflexivity.
      * simpl in Hin. destruct Hin as [<- | [<- | [<- | [<- | []]]]]; simpl; lia.
Qed.

Lemma unit_lookup_at_2048_and_tebibyte :
  ((2048 < 1024 ^ 4)%N /\ unitIndex 2048 < List.length sizes) /\
  ((1024 ^ 4 <= 1024 ^ 4)%N /\ nth_error sizes (unitIndex (1024 ^ 4)) = None).
Proof.
  split.
  - split; [reflexivity |].
    apply (unit_lookup_in_bounds_iff 2048); reflexivity.
  - split; [discriminate |].
    apply (unit_lookup_in_bounds_iff (1024 ^ 4)). discriminate.
Defined.

End FormatFacts.

(** ** The download name *)

Module DownloadFacts.
Import Download.

Lemma split_first_dot (base rest : string) :
  hasDot base = false ->
  exists pieces, split "." (base ++ String "." rest) = base :: pieces.
Proof.
  induction base as [| c base IH]; intros Hdot.
  - simpl. eexists. reflexivity.
  - simpl in Hdot. apply orb_false_iff in Hdot. destruct Hdot as [Hc Hbase].
    destruct (IH Hbase) as [pieces Hsplit].
    exists pieces. simpl. rewrite Hc, Hsplit. reflexivity.
Qed.

Lemma split_no_dot (name : string) :
  hasDot name = false -> split "." name = [name].
Proof.
  induction name as [| c name IH]; intros Hdot; [reflexivity |].
  simpl in Hdot. apply orb_false_iff in Hdot. destruct Hdot as [Hc Hname].
  simpl. rewrite Hc, (IH Hname). reflexivity.
Qed.

(** What the code computes: the name is cut at its first dot. *)
Lemma downloadName_cuts_at_first_dot (base rest : string) :
  hasDot base = false ->
  downloadName (base ++ String "." rest) = base ++ ".webp".
Proof.
  intros Hdot. unfold downloadName.
  destruct (split_first_dot base rest Hdot) as [pieces ->]. reflexivity.
Qed.

Lemma stripExtension_no_dot (name : string) :
  hasDot name = false -> stripExtension name = name.
Proof.
  induction name as [| c name IH]; intros Hdot; [reflexivity |].
  simpl in Hdot. apply orb_false_iff in Hdot. destruct Hdot as [Hc Hname].
  simpl. rewrite Hc, (IH Hname). reflexivity.
Qed.

(** The two agree on names with at most one dot. *)
Lemma downloadName_single_extension (base ext : string) :
  hasDot base = false -> hasDot ext = false ->
  downloadName (base ++ String "." ext) = specDownloadName (base ++ String "." ext).
Proof.
  intros Hbase Hext. rewrite downloadName_cuts_at_first_dot by exact Hbase.
  unfold specDownloadName. f_equal.
  induction base as [| c base IH].
  - simpl. rewrite Hext. reflexivity.
  - simpl in Hbase. apply orb_false_iff in Hbase. destruct Hbase as [Hc Hb].
    simpl. rewrite Hc, <- (IH Hb). reflexivity.
Qed.

(** C9, on the code: for the original name "photo.final.png" the
    download is named "photo.webp", while the name with its final
    extension stripped and [.webp] appended is "photo.final.webp". *)
Theorem downloadName_drops_inner_segments :
  downloadName "photo.final.png" = "photo.webp" /\
  specDownloadName "photo.final.png" = "photo.final.webp" /\
  downloadName "photo.final.png" <> specDownloadName "photo.final.png".
Proof. repeat split; try reflexivity. discriminate. Qed.

End DownloadFacts.

(** ** The registry *)

Module RegistryFacts.
Import Pipeline Registry Session Samples Observations.
Local Open Scope list_scope.

Lemma createJobs_originalFile rng n imageFiles :
  map originalFile (createJobs rng n imageFiles) = imageFiles.
Proof.
  revert n. induction imageFiles as [| file rest IH]; intros n; simpl;
    [reflexivity | now rewrite IH].
Qed.

Lemma createJobs_fresh rng n imageFiles :
  Forall (fun job => status job = Converting /\ convertedUrl job = None /\
                     convertedSize job = None /\ error job = None /\
                     originalType job = type (originalFile job))
         (createJobs rng n imageFiles).
Proof.
  revert n. induction imageFiles as [| file rest IH]; intros n; simpl;
    constructor; [simpl; auto | apply IH].
Qed.

Lemma createJobs_ids rng n imageFiles :
  map id (createJobs rng n imageFiles)
  = map (fun i => newId (rng i)) (seq n (List.length imageFiles)).
Proof.
  revert n. induction imageFiles as [| file rest IH]; intros n; simpl;
    [reflexivity | now rewrite IH].
Qed.

Lemma run_forOf_files newFiles q w :
  files (fst (run (forOf newFiles q) w)) = files w.
Proof. destruct newFiles; reflexivity. Qed.

Lemma world_spawn r others : world (spawn r others) = fst r.
Proof. unfold spawn. destruct (snd r); reflexivity. Qed.

Lemma world_continue r before after : world (continue r before after) = fst r.
Proof. unfold continue. destruct (snd r); reflexivity. Qed.

(** C4. A selection produces one job per file whose type starts with
    "image/", in selection order, each in [Converting] state with no
    result yet, appended after the jobs already in the registry; a
    selection without image files changes nothing. *)
Theorem select_appends_image_jobs (selectedFiles : list File) (s : State) :
  files (world (perform (Select selectedFiles) s))
    = files (world s) ++ newFilesOf selectedFiles (world s) /\
  map originalFile (newFilesOf selectedFiles (world s))
    = filter isImage selectedFiles /\
  Forall (fun job => status job = Converting /\ convertedUrl job = None /\
                     convertedSize job = None /\ error job = None /\
                     originalType job = type (originalFile job))
         (newFilesOf selectedFiles (world s)) /\
  (filter isImage selectedFiles = [] -> perform (Select selectedFiles) s = s).
Proof.
  split; [| split; [| split]].
  - unfold perform, handleFilesSelected, newFilesOf, imageFilesOf.
    destruct (filter isImage selectedFiles) as [| file rest] eqn:E.
    + simpl. rewrite app_nil_r. reflexivity.
    + cbn [List.length Nat.eqb].
      rewrite world_spawn. cbn [run]. rewrite run_forOf_files. reflexivity.
  - apply createJobs_originalFile.
  - apply createJobs_fresh.
  - intros E. unfold perform, handleFilesSelected, imageFilesOf.
    rewrite E. destruct s. reflexivity.
Qed.

Lemma select_without_images :
  filter isImage [notes] = [] /\
  perform (Select [notes]) (start sampleRng) = start sampleRng.
Proof.
  split; [reflexivity |].
  apply (select_appends_image_jobs [notes] (start sampleRng)). reflexivity.
Defined.

Lemma updateJob_absent target o prev :
  ~ In target (map id prev) -> updateJob target o prev = prev.
Proof.
  induction prev as [| f prev IH]; intros Habsent; [reflexivity |].
  simpl in *. destruct (String.eqb_spec (id f) target) as [E | _].
  - exfalso. auto.
  - f_equal. apply IH. auto.
Qed.

(** C5. An update, success or failure, addressed to an id that no job of
    the registry carries leaves the registry as it is: the same jobs in
    the same order, the id still absent.  (The updater is a total
    function, so nothing is raised.) *)
Theorem update_of_absent_id_is_noop (target : string) (o : Outcome) (w : World) :
  ~ In target (map id (files w)) ->
  updateJob target o (files w) = files w /\
  files (setFiles (updateJob target o) w) = files w /\
  ~ In target (map id (files (setFiles (updateJob target o) w))).
Proof.
  intros Habsent.
  assert (E : updateJob target o (files w) = files w)
    by (apply updateJob_absent; exact Habsent).
  repeat split.
  - exact E.
  - simpl. exact E.
  - simpl. rewrite E. exact Habsent.
Qed.

Lemma late_update_is_dropped :
  ~ In "4fzyo82mv" (map id (files (world removedInFlight))) /\
  files (setFiles (updateJob "4fzyo82mv" (Resolved "blob:0" 1234)) (world removedInFlight))
    = files (world removedInFlight).
Proof.
  split; [simpl; tauto |].
  apply (update_of_absent_id_is_noop "4fzyo82mv" (Resolved "blob:0" 1234)
           (world removedInFlight)).
  simpl; tauto.
Defined.

End RegistryFacts.

(** ** The session *)

Module SessionFacts.
Import Pipeline Registry Session Samples Observations RegistryFacts.
Local Open Scope list_scope.

Lemma run_random body w :
  rng (fst (run body w)) = rng w /\
  randomCalls (fst (run body w)) = randomCalls w.
Proof.
  revert w. induction body as [| update next IH | file q resume IH]; intros w.
  - auto.
  - simpl. destruct (IH (setFiles update w)) as [-> ->]. auto.
  - auto.
Qed.

Lemma perform_random a s :
  rng (world (perform a s)) = rng (world s) /\
  randomCalls (world (perform a s)) = randomCalls (world s) + drawsOfAction a.
Proof.
  destruct a as [selectedFiles | n p | target | | q]; simpl.
  - unfold handleFilesSelected.
    destruct (List.length (imageFilesOf selectedFiles) =? 0)%nat eqn:E.
    + rewrite world_spawn. simpl.
      apply Nat.eqb_eq in E. rewrite E. auto.
    + rewrite world_spawn.
      match goal with |- context [run ?b ?w] => destruct (run_random b w) as [-> ->] end.
      auto.
  - destruct (nth_error (tasks s) n) as [t |]; [| auto].
    rewrite world_continue.
    match goal with |- context [run ?b ?w] => destruct (run_random b w) as [-> ->] end.
    auto.
  - unfold removeFile.
    destruct (find _ (files (world s))); simpl; auto.
  - auto.
  - auto.
Qed.

Lemma createdBy_ids script s :
  exists draws,
    randomCalls (world (performAll script s)) = randomCalls (world s) + draws /\
    map id (createdBy script s)
    = map (fun i => newId (rng (world s) i)) (seq (randomCalls (world s)) draws).
Proof.
  revert s. induction script as [| a rest IH]; intros s.
  - exists 0. simpl. auto.
  - destruct (IH (perform a s)) as (draws & Hcalls & Hids).
    destruct (perform_random a s) as [Hrng Hcount].
    exists (drawsOfAction a + draws). split.
    + change (performAll (a :: rest) s) with (performAll rest (perform a s)).
      rewrite Hcalls, Hcount. lia.
    + simpl. rewrite map_app, Hids, Hrng, Hcount, seq_app, map_app.
      f_equal.
      destruct a; simpl; try reflexivity.
      apply createJobs_ids.
Qed.

Lemma NoDup_map_injective_on {A B : Type} (f : A -> B) (l : list A) :
  NoDup l ->
  (forall x y, In x l -> In y l -> f x = f y -> x = y) ->
  NoDup (map f l).
Proof.
  induction 1 as [| x l Hnotin Hrest IH]; intros Hinj; simpl; constructor.
  - intros Hin. apply in_map_iff in Hin. destruct Hin as (y & Hy & Hyin).
    assert (y = x) by (apply Hinj; simpl; auto).
    subst y. contradiction.
  - apply IH. intros y z Hy Hz. apply Hinj; simpl; auto.
Qed.

(** C3, the claim as stated fails: two draws that differ only after
    their tenth character give two jobs of one batch the same id. *)
Lemma colliding_draws_share_an_id :
  ~ NoDup (map id (createdBy [Select [photo; scan]] (start collidingRng))).
Proof.
  intros H. inversion H as [| x l Hnotin _]; subst.
  apply Hnotin. left. reflexivity.
Qed.

(** C3, amended.  The ids of the jobs ever created in a session are, in
    creation order, the nine-character slices (characters 2..10) of the
    successive random draws; they are pairwise distinct whenever the
    slices of the draws used so far are pairwise distinct. *)
Theorem ids_are_slices_of_draws (rng : nat -> string) (script : list Action) :
  let n := randomCalls (world (performAll script (start rng))) in
  map id (createdBy script (start rng)) = map (fun i => newId (rng i)) (seq 0 n) /\
  ((forall i j, i < n -> j < n -> newId (rng i) = newId (rng j) -> i = j) ->
   NoDup (map id (createdBy script (start rng)))).
Proof.
  intros n.
  destruct (createdBy_ids script (start rng)) as (draws & Hcalls & Hids).
  simpl in Hcalls, Hids. fold n in Hcalls. subst draws.
  split; [exact Hids |].
  intros Hinj. rewrite Hids.
  apply NoDup_map_injective_on; [apply seq_NoDup |].
  intros i j Hi Hj. apply in_seq in Hi, Hj. apply Hinj; lia.
Qed.

Lemma sample_draws_give_distinct_ids :
  NoDup (map id (createdBy [Select [photo; notes; scan]] (start sampleRng))).
Proof.
  apply (ids_are_slices_of_draws sampleRng [Select [photo; notes; scan]]).
  intros i j Hi Hj.
  destruct i as [| [| i]]; destruct j as [| [| j]]; simpl in *;
    try reflexivity; try discriminate; lia.
Defined.

(** *** One batch, one conversion at a time *)

Lemma forOf_sequential (job : ConvertedFile) (rest : list ConvertedFile) (q : Z) :
  Sequential
    (mkTask (originalFile job) q
            (fun o => SetFiles (updateJob (id job) o) (forOf rest q)))
    (job :: rest) q.
Proof.
  revert job. induction rest as [| next rest IH]; intros job.
  - simpl. auto.
  - split; [reflexivity |]. split; [reflexivity |].
    intros o w. eexists. split; [reflexivity |]. apply IH.
Qed.

(** When the awaited conversion of a handler with jobs left settles, the
    outcome is applied and exactly the next job's conversion starts. *)
Lemma settle_starts_next (s : State) (n : nat) (p : Platform) (t : Task)
      (job next : ConvertedFile) (rest : list ConvertedFile) (q : Z) :
  nth_error (tasks s) n = Some t ->
  Sequential t (job :: next :: rest) q ->
  let o := outcome (convertToWebP (originalFile job) q p) in
  files (world (perform (Settle n p) s)) = updateJob (id job) o (files (world s)) /\
  started (world (perform (Settle n p) s))
    = started (world s) ++ [(originalFile next, q)].
Proof.
  intros Hnth (Hfile & Hq & Hresume) o. unfold perform. rewrite Hnth.
  rewrite world_continue, Hfile, Hq. fold o.
  destruct (Hresume o (world s)) as (t' & -> & _). auto.
Qed.

(** When the last conversion of a handler settles, the outcome is applied
    and no conversion starts. *)
Lemma settle_last (s : State) (n : nat) (p : Platform) (t : Task)
      (job : ConvertedFile) (q : Z) :
  nth_error (tasks s) n = Some t ->
  Sequential t [job] q ->
  let o := outcome (convertToWebP (originalFile job) q p) in
  files (world (perform (Settle n p) s)) = updateJob (id job) o (files (world s)) /\
  started (world (perform (Settle n p) s)) = started (world s).
Proof.
  intros Hnth (Hfile & Hq & Hresume) o. unfold perform. rewrite Hnth.
  rewrite world_continue, Hfile, Hq. fold o.
  rewrite (Hresume o (world s)). auto.
Qed.

(** C1, the claim as stated fails: of a batch of two images only the
    first conversion is started by the submission; the second starts
    when the first has settled. *)
Lemma second_job_waits_for_first :
  ~ allStartedAtOnce [photo; scan] (start sampleRng) /\
  map fst (started (world (perform (Select [photo; scan]) (start sampleRng))))
    = [photo] /\
  map fst (started (world (performAll [Select [photo; scan]; Settle 0 workingPlatform]
                                      (start sampleRng))))
    = [photo; scan].
Proof.
  split; [| split]; try reflexivity.
  unfold allStartedAtOnce. simpl. discriminate.
Qed.

(** C1, amended.  Submitting a batch whose accepted files give the jobs
    [job :: rest] appends all those jobs to the registry at once, starts
    the conversion of the first job only, and leaves one more suspended
    handler beside those already in flight; that handler converts the
    batch one job at a time in input order: each outcome is applied to
    the registry before the next job's conversion starts. *)
Theorem batch_is_converted_in_turn
        (selectedFiles : list File) (s : State)
        (job : ConvertedFile) (rest : list ConvertedFile) :
  newFilesOf selectedFiles (world s) = job :: rest ->
  files (world (perform (Select selectedFiles) s))
    = files (world s) ++ job :: rest /\
  started (world (perform (Select selectedFiles) s))
    = started (world s) ++ [(originalFile job, quality (world s))] /\
  exists t,
    tasks (perform (Select selectedFiles) s) = tasks s ++ [t] /\
    Sequential t (job :: rest) (quality (world s)).
Proof.
  intros Hnew.
  assert (Himg : (List.length (imageFilesOf selectedFiles) =? 0)%nat = false).
  { unfold newFilesOf in Hnew.
    destruct (imageFilesOf selectedFiles); [discriminate Hnew | reflexivity]. }
  unfold perform, handleFilesSelected. rewrite Himg, Hnew.
  cbn [run forOf spawn fst snd world tasks].
  split; [reflexivity |]. split; [reflexivity |].
  eexists. split; [reflexivity |]. apply forOf_sequential.
Qed.

Lemma batch_of_two_is_converted_in_turn :
  started (world (perform (Select [photo; scan]) (start sampleRng)))
    = [(photo, 85%Z)] /\
  exists t,
    tasks (perform (Select [photo; scan]) (start sampleRng)) = [t] /\
    Sequential t (newFilesOf [photo; scan] (world (start sampleRng))) 85.
Proof.
  apply (batch_is_converted_in_turn [photo; scan] (start sampleRng)
           (newJob (sampleRng 0) photo) [newJob (sampleRng 1) scan]).
  reflexivity.
Defined.

(** *** Releasing output handles *)

Lemma removeFile_revoked (f : ConvertedFile) (w : World) :
  find (fun g => id g =? id f)%string (files w) = Some f ->
  revoked (removeFile (id f) w)
  = revoked w ++ heldUrl f ++ flat_map heldUrl (files w).
Proof.
  intros Hfind. unfold removeFile. rewrite Hfind. simpl.
  rewrite app_nil_r, app_assoc. reflexivity.
Qed.

(** X10. Removing a job that holds a handle revokes the handle once in
    [removeFile] and once more in the cleanup of the render it ends. *)
Lemma removeFile_releases_twice (f : ConvertedFile) (url : string) (w : World) :
  find (fun g => id g =? id f)%string (files w) = Some f ->
  heldUrl f = [url] ->
  2 + releases url w <= releases url (removeFile (id f) w).
Proof.
  intros Hfind Hheld. unfold releases.
  rewrite (removeFile_revoked f w Hfind), Hheld, !count_occ_app.
  assert (Hin : In url (flat_map heldUrl (files w))).
  { apply in_flat_map. exists f. split.
    - apply find_some in Hfind. tauto.
    - rewrite Hheld. left. reflexivity. }
  apply (count_occ_In string_dec) in Hin.
  simpl. destruct (string_dec url url); [lia | contradiction].
Qed.

(** C2, on the code.  Once the photo is converted its job holds the
    handle "blob:0", not yet released.  Removing the job, or pressing
    Clean All, empties the registry and releases the handle twice;
    submitting another file releases it while the job stays in the
    registry, still pointing at it.  When the job is removed while its
    conversion is in flight, the conversion still creates "blob:0", the
    update is dropped, and the handle is never released, not even at
    unmount. *)
Theorem handle_is_released_twice :
  map convertedUrl (files (world photoConverted)) = [Some "blob:0"] /\
  releases "blob:0" (world photoConverted) = 0 /\
  files (world (perform (Remove "4fzyo82mv") photoConverted)) = [] /\
  releases "blob:0" (world (perform (Remove "4fzyo82mv") photoConverted)) = 2 /\
  files (world (perform CleanAll photoConverted)) = [] /\
  releases "blob:0" (world (perform CleanAll photoConverted)) = 2 /\
  map convertedUrl (files (world (perform (Select [scan]) photoConverted)))
    = [Some "blob:0"; None] /\
  releases "blob:0" (world (perform (Select [scan]) photoConverted)) = 1 /\
  outcome (convertToWebP photo 85 workingPlatform) = Resolved "blob:0" 1234 /\
  files (world (perform (Settle 0 workingPlatform) removedInFlight)) = [] /\
  releases "blob:0"
    (unmount (world (perform (Settle 0 workingPlatform) removedInFlight))) = 0.
Proof. repeat split. Qed.

End SessionFacts.

(** ** The states a session can reach *)

Module ReachableFacts.
Import Pipeline Registry Session Samples Observations Invariants RegistryFacts SessionFacts.
Local Open Scope list_scope.

Lemma Forall2_firstn {A B : Type} (R : A -> B -> Prop) (n : nat) l l' :
  Forall2 R l l' -> Forall2 R (firstn n l) (firstn n l').
Proof.
  intros H. revert n. induction H; intros [| n]; simpl; constructor; auto.
Qed.

Lemma Forall2_skipn {A B : Type} (R : A -> B -> Prop) (n : nat) l l' :
  Forall2 R l l' -> Forall2 R (skipn n l) (skipn n l').
Proof.
  intros H. revert n. induction H; intros [| n]; simpl; auto.
Qed.

Lemma Forall2_nth_error_l {A B : Type} (R : A -> B -> Prop) l l' n x :
  Forall2 R l l' -> nth_error l n = Some x ->
  exists y, nth_error l' n = Some y /\ R x y.
Proof.
  intros H. revert n. induction H; intros [| n] Hn; simpl in *; try discriminate.
  - injection Hn as <-. eauto.
  - eauto.
Qed.

Lemma nth_error_split_at {A : Type} (l : list A) n x :
  nth_error l n = Some x -> l = firstn n l ++ x :: skipn (S n) l.
Proof.
  revert n. induction l as [| y l IH]; intros [| n] Hn; simpl in *; try discriminate.
  - injection Hn as <-. reflexivity.
  - f_equal. apply IH. exact Hn.
Qed.

Lemma queued_app q1 q2 : queued (q1 ++ q2) = queued q1 + queued q2.
Proof. unfold queued. rewrite map_app, list_sum_app. reflexivity. Qed.

Lemma queued_cons jobs q : queued (jobs :: q) = pred (List.length jobs) + queued q.
Proof. reflexivity. Qed.

Lemma sequential_nonempty t jobs q : Sequential t jobs q -> jobs <> [].
Proof. destruct jobs; simpl; [tauto | discriminate]. Qed.

Lemma newFiles_imageJobs selectedFiles w :
  Forall imageJob (newFilesOf selectedFiles w).
Proof.
  unfold newFilesOf, imageFilesOf.
  assert (H : Forall (fun file => isImage file = true) (filter isImage selectedFiles)).
  { apply Forall_forall. intros file Hin. apply filter_In in Hin. tauto. }
  revert H. generalize (randomCalls w). generalize (filter isImage selectedFiles).
  induction l as [| file rest IH]; intros n H; simpl; constructor.
  - inversion H; subst. split; [assumption | reflexivity].
  - apply IH. inversion H; assumption.
Qed.

Lemma newFiles_length selectedFiles w :
  List.length (newFilesOf selectedFiles w) = List.length (imageFilesOf selectedFiles).
Proof.
  unfold newFilesOf. rewrite <- (createJobs_originalFile (rng w) (randomCalls w)) at 2.
  rewrite length_map. reflexivity.
Qed.

Lemma select_appends_image_jobs_files (selectedFiles : list File) (s : State) :
  files (world (perform (Select selectedFiles) s))
    = files (world s) ++ newFilesOf selectedFiles (world s) /\
  (imageFilesOf selectedFiles = [] -> perform (Select selectedFiles) s = s).
Proof.
  unfold perform, handleFilesSelected, newFilesOf.
  destruct (imageFilesOf selectedFiles) as [| file rest] eqn:E; split.
  - simpl. rewrite app_nil_r. reflexivity.
  - intros _. destruct s. reflexivity.
  - cbn [List.length Nat.eqb].
    rewrite world_spawn. cbn [run]. rewrite run_forOf_files. reflexivity.
  - discriminate.
Qed.

(** One action keeps the handlers tracked and changes the registry in one
    of the ways of [Change]. *)
Lemma perform_tracked (a : Action) (s : State) queues :
  Tracked s queues ->
  (exists queues', Tracked (perform a s) queues') /\
  Change (world s) a (files (world (perform a s))).
Proof.
  intros [Hserve Hcount].
  destruct a as [selectedFiles | n p | target | | q].
  - (* Select *)
    pose proof (newFiles_imageJobs selectedFiles (world s)) as Himg.
    pose proof (newFiles_length selectedFiles (world s)) as Hlen.
    destruct (select_appends_image_jobs_files selectedFiles s) as [Hfiles Hnone].
    split; [| rewrite Hfiles; constructor].
    unfold perform, handleFilesSelected.
    destruct (newFilesOf selectedFiles (world s)) as [| job rest] eqn:Hnew.
    + simpl in Hlen. rewrite <- Hlen. simpl.
      exists queues. split; assumption.
    + simpl in Hlen. rewrite <- Hlen. cbn [Nat.eqb List.length].
      cbn [run forOf spawn fst snd].
      exists (queues ++ [job :: rest]). split.
      * cbn [tasks]. apply Forall2_app; [exact Hserve |].
        constructor; [| constructor].
        split; [| exact Himg].
        eexists. apply forOf_sequential.
      * cbn [world]. simpl. rewrite length_app, queued_app, queued_cons.
        simpl. unfold queued at 2. simpl. lia.
  - (* Settle *)
    unfold perform.
    destruct (nth_error (tasks s) n) as [t |] eqn:Hnth.
    2:{ split; [exists queues; split; assumption | constructor]. }
    destruct (Forall2_nth_error_l _ _ _ _ _ Hserve Hnth) as (jobs & Hq & [[q Hseq] Himg]).
    pose proof (nth_error_split_at _ _ _ Hq) as Hsplit.
    destruct jobs as [| job rest]; [destruct Hseq |].
    destruct Hseq as (Hfile & Hquality & Hresume).
    rewrite Hfile, Hquality.
    set (o := outcome (convertToWebP (originalFile job) q p)).
    specialize (Hresume o (world s)).
    assert (Hq' : queued queues
                  = queued (firstn n queues) + (List.length rest + queued (skipn (S n) queues))).
    { rewrite Hsplit at 1. rewrite queued_app, queued_cons. reflexivity. }
    pose proof (Forall_inv Himg) as Hjob.
    pose proof (Forall_inv_tail Himg) as Hrest.
    destruct rest as [| next rest].
    + rewrite Hresume. unfold continue. cbn [fst snd].
      split; [| apply ChangeSettle; exact Hjob].
      exists (firstn n queues ++ skipn (S n) queues). split.
      * cbn [tasks]. apply Forall2_app; [apply Forall2_firstn | apply Forall2_skipn]; exact Hserve.
      * cbn [world]. simpl. rewrite queued_app. simpl in Hq'. lia.
    + destruct Hresume as (t' & Hrun & Hseq').
      rewrite Hrun. unfold continue. cbn [fst snd].
      split; [| apply ChangeSettle; exact Hjob].
      exists (firstn n queues ++ (next :: rest) :: skipn (S n) queues). split.
      * cbn [tasks]. apply Forall2_app; [apply Forall2_firstn; exact Hserve |].
        constructor; [| apply Forall2_skipn; exact Hserve].
        split; [exists q; exact Hseq' | exact Hrest].
      * cbn [world]. simpl. rewrite length_app, queued_app, queued_cons.
        simpl in Hq'. simpl. lia.
  - (* Remove *)
    split.
    + exists queues. split; [exact Hserve |].
      simpl. unfold removeFile.
      destruct (find _ (files (world s))); simpl; exact Hcount.
    + simpl. unfold removeFile.
      destruct (find _ (files (world s))); exact (ChangeRemove (world s) target).
  - split; [| exact (ChangeCleanAll (world s))]. exists queues. split; assumption.
  - split; [| exact (ChangeQuality (world s) q)]. exists queues. split; assumption.
Qed.

Lemma start_tracked rng : Tracked (start rng) [].
Proof. split; [constructor | reflexivity]. Qed.

Lemma performAll_app script1 script2 s :
  performAll (script1 ++ script2) s = performAll script2 (performAll script1 s).
Proof. apply fold_left_app. Qed.

Lemma performAll_tracked script s queues :
  Tracked s queues -> exists queues', Tracked (performAll script s) queues'.
Proof.
  revert s queues. induction script as [| a rest IH]; intros s queues H.
  - exists queues. exact H.
  - destruct (perform_tracked a s queues H) as [[queues' H'] _].
    apply (IH (perform a s) queues' H').
Qed.

(** A property of the registry that holds initially and is kept by each
    way of changing it holds after every script. *)
Lemma registry_invariant (P : list ConvertedFile -> Prop) (good : Platform -> Prop) :
  (forall fs selectedFiles w, P fs -> P (fs ++ newFilesOf selectedFiles w)) ->
  (forall fs job q p, good p -> imageJob job -> P fs ->
     P (updateJob (id job) (outcome (convertToWebP (originalFile job) q p)) fs)) ->
  (forall fs target, P fs -> P (filter (fun f => negb (id f =? target)%string) fs)) ->
  P [] ->
  forall script s queues,
    Forall (settlesOn good) script -> Tracked s queues ->
    P (files (world s)) -> P (files (world (performAll script s))).
Proof.
  intros Happend Hupdate Hfilter Hnil.
  induction script as [| a rest IH]; intros s queues Hgood Htracked HP; [exact HP |].
  destruct (perform_tracked a s queues Htracked) as [[queues' Htracked'] Hchange].
  apply (IH (perform a s) queues'); [exact (Forall_inv_tail Hgood) | exact Htracked' |].
  pose proof (Forall_inv Hgood) as Ha.
  clear IH Hgood Htracked Htracked'.
  remember (files (world (perform a s))) as after eqn:E. clear E.
  destruct Hchange; simpl in Ha; auto.
Qed.

Lemma settlesOn_True script : Forall (settlesOn (fun _ => True)) script.
Proof. apply Forall_forall. intros [] _; exact I. Qed.

Lemma updateJob_Forall (P : ConvertedFile -> Prop) target o fs :
  (forall f, P f -> P (settled o f)) -> Forall P fs -> Forall P (updateJob target o fs).
Proof.
  intros Hsettled H. unfold updateJob. apply Forall_forall.
  intros f Hin. apply in_map_iff in Hin. destruct Hin as (g & <- & Hg).
  rewrite Forall_forall in H.
  destruct (id g =? target)%string; auto.
Qed.

Lemma filter_Forall {A : Type} (P : A -> Prop) (keep : A -> bool) l :
  Forall P l -> Forall P (filter keep l).
Proof.
  intros H. apply Forall_forall. intros x Hin. apply filter_In in Hin.
  rewrite Forall_forall in H. apply H. tauto.
Qed.

Lemma settled_imageJob o f : imageJob f -> imageJob (settled o f).
Proof. destruct o; exact (fun H => H). Qed.

Lemma settled_consistent o f : consistent (settled o f).
Proof. destruct o; unfold consistent; simpl; eauto. Qed.

Lemma newFiles_consistent selectedFiles w :
  Forall consistent (newFilesOf selectedFiles w).
Proof.
  eapply Forall_impl; [| apply createJobs_fresh].
  intros j (Hs & Hu & Hz & He & _). unfold consistent. rewrite Hs. auto.
Qed.

(** X1. Whatever the user and the browser do, the registry holds jobs of
    image files only, each recording its file's type, and every handler
    in flight awaits the conversion of an image file. *)
Theorem registry_holds_images_only (rng : nat -> string) (script : list Action) :
  Forall imageJob (files (world (performAll script (start rng)))) /\
  Forall (fun t => isImage (awaitedFile t) = true)
         (tasks (performAll script (start rng))).
Proof.
  split.
  - apply (registry_invariant (Forall imageJob) (fun _ => True)) with (queues := []).
    + intros fs sel w H. apply Forall_app. split; [exact H | apply newFiles_imageJobs].
    + intros fs job q p _ _ H. apply updateJob_Forall; [| exact H].
      intros f. apply settled_imageJob.
    + intros fs target. apply filter_Forall.
    + constructor.
    + apply settlesOn_True.
    + apply start_tracked.
    + constructor.
  - destruct (performAll_tracked script (start rng) [] (start_tracked rng))
      as [queues [Hserve _]].
    induction Hserve as [| t jobs ts qs [[q Hseq] Himg] _ IH]; constructor; [| exact IH].
    destruct jobs as [| job rest]; [destruct Hseq |].
    destruct Hseq as (-> & _). apply (Forall_inv Himg).
Qed.

(** X2. Whatever the user and the browser do, every job of the registry has
    the fields its status calls for: no result and no error while
    converting, a URL and a size once converted, a message once failed. *)
Theorem registry_jobs_are_consistent (rng : nat -> string) (script : list Action) :
  Forall consistent (files (world (performAll script (start rng)))).
Proof.
  apply (registry_invariant (Forall consistent) (fun _ => True)) with (queues := []).
  - intros fs sel w H. apply Forall_app. split; [exact H | apply newFiles_consistent].
  - intros fs job q p _ _ H. apply updateJob_Forall; [| exact H].
    intros f _. apply settled_consistent.
  - intros fs target. apply filter_Forall.
  - constructor.
  - apply settlesOn_True.
  - apply start_tracked.
  - constructor.
Qed.

Lemma updateJob_ids target o fs : map id (updateJob target o fs) = map id fs.
Proof.
  unfold updateJob. rewrite map_map. apply map_ext.
  intros f. destruct (id f =? target)%string; [destruct o |]; reflexivity.
Qed.

Lemma updateJob_originalFile target o fs :
  map originalFile (updateJob target o fs) = map originalFile fs.
Proof.
  unfold updateJob. rewrite map_map. apply map_ext.
  intros f. destruct (id f =? target)%string; [destruct o |]; reflexivity.
Qed.

Lemma reachable_tracked rng script :
  exists queues, Tracked (performAll script (start rng)) queues.
Proof. apply (performAll_tracked script (start rng) [] (start_tracked rng)). Qed.

(** X3. In every state a session can reach, the settling of a conversion
    neither adds, removes nor reorders jobs: the ids and the original
    files of the registry stay as they are, position by position. *)
Theorem settle_keeps_the_jobs (rng : nat -> string) (script : list Action)
        (n : nat) (p : Platform) :
  let s := performAll script (start rng) in
  map id (files (world (perform (Settle n p) s))) = map id (files (world s)) /\
  map originalFile (files (world (perform (Settle n p) s)))
    = map originalFile (files (world s)).
Proof.
  intros s. destruct (reachable_tracked rng script) as [queues Htracked].
  fold s in Htracked.
  destruct (perform_tracked (Settle n p) s queues Htracked) as [_ Hchange].
  remember (files (world (perform (Settle n p) s))) as after eqn:E. clear E.
  inversion Hchange; subst.
  - rewrite updateJob_ids, updateJob_originalFile. auto.
  - auto.
Qed.

Lemma filter_ids_incl (keep : ConvertedFile -> bool) fs :
  incl (map id (filter keep fs)) (map id fs).
Proof.
  intros x Hin. apply in_map_iff in Hin. destruct Hin as (f & <- & Hf).
  apply filter_In in Hf. apply in_map. tauto.
Qed.

Lemma filter_length_le {A : Type} (keep : A -> bool) l :
  List.length (filter keep l) <= List.length l.
Proof. induction l as [| x l IH]; simpl; [| destruct (keep x); simpl]; lia. Qed.

Lemma no_select_shrinks script s queues :
  Tracked s queues ->
  forallb (fun a => negb (isSelect a)) script = true ->
  incl (map id (files (world (performAll script s)))) (map id (files (world s))) /\
  List.length (files (world (performAll script s))) <= List.length (files (world s)).
Proof.
  revert s queues. induction script as [| a rest IH]; intros s queues Htracked Hno.
  - split; [apply incl_refl | apply le_n].
  - simpl in Hno. apply andb_true_iff in Hno. destruct Hno as [Ha Hrest].
    destruct (perform_tracked a s queues Htracked) as [[queues' Htracked'] Hchange].
    destruct (IH (perform a s) queues' Htracked' Hrest) as [Hincl Hlen].
    change (performAll (a :: rest) s) with (performAll rest (perform a s)).
    assert (Hstep : incl (map id (files (world (perform a s)))) (map id (files (world s)))
                    /\ List.length (files (world (perform a s)))
                       <= List.length (files (world s))).
    { remember (files (world (perform a s))) as after eqn:E. clear E.
      destruct Hchange; try discriminate Ha.
      - rewrite updateJob_ids. split; [apply incl_refl |].
        unfold updateJob. rewrite length_map. apply le_n.
      - split; [apply incl_refl | apply le_n].
      - split; [apply filter_ids_incl | apply filter_length_le].
      - split; [intros x [] | simpl; lia].
      - split; [apply incl_refl | apply le_n]. }
    destruct Hstep as [Hincl1 Hlen1].
    split; [eapply incl_tran; eassumption | lia].
Qed.

(** X4. Once a job has left the registry it does not come back: as long as no
    new files are selected, whatever settles, is removed or cleared, the
    registry gains no job and shows no id that it did not show before. *)
Theorem no_job_returns_without_select
        (rng : nat -> string) (before after : list Action) :
  forallb (fun a => negb (isSelect a)) after = true ->
  incl (map id (files (world (performAll (before ++ after) (start rng)))))
       (map id (files (world (performAll before (start rng))))) /\
  List.length (files (world (performAll (before ++ after) (start rng))))
    <= List.length (files (world (performAll before (start rng)))).
Proof.
  intros Hno. rewrite performAll_app.
  destruct (reachable_tracked rng before) as [queues Htracked].
  apply (no_select_shrinks after _ queues Htracked Hno).
Qed.

Lemma cleared_registry_stays_empty :
  List.length (files (world (performAll
     ([Select [photo; scan]; CleanAll]
        ++ [Settle 0 workingPlatform; Settle 0 workingPlatform])
     (start sampleRng))))
  <= List.length (files (world (performAll [Select [photo; scan]; CleanAll]
                                           (start sampleRng)))).
Proof.
  apply (no_job_returns_without_select sampleRng
           [Select [photo; scan]; CleanAll]
           [Settle 0 workingPlatform; Settle 0 workingPlatform]).
  reflexivity.
Defined.

Lemma resolved_url file q p url size :
  outcome (convertToWebP file q p) = Resolved url size -> url = objectURL p.
Proof.
  unfold convertToWebP.
  destruct (negb (isImage file)); [discriminate |].
  destruct (negb (imageLoads p)); [discriminate |].
  destruct (negb (context2d p)); [discriminate |].
  destruct (drawThrows p); [discriminate |]. simpl.
  destruct (toBlob p _ _); [| discriminate].
  intros H. injection H as <- _. reflexivity.
Qed.

Lemma downloadable_shown f :
  downloadable f -> (downloadShown f = true <-> status f = Converted).
Proof.
  unfold downloadable, downloadShown. intros H.
  destruct (status f); try (split; discriminate).
  destruct (H eq_refl) as (url & -> & Hurl). split; [reflexivity |]. intros _.
  destruct (String.eqb_spec url ""); [contradiction | reflexivity].
Qed.

(** X20. As long as the browser never hands out an empty object URL, in every
    state a session can reach the rows that show a Download button are
    exactly the rows of the converted jobs. *)
Theorem download_button_marks_converted_jobs
        (rng : nat -> string) (script : list Action) :
  Forall (settlesOn (fun p => objectURL p <> ""%string)) script ->
  Forall (fun f => downloadShown f = true <-> status f = Converted)
         (files (world (performAll script (start rng)))).
Proof.
  intros Hgood.
  eapply Forall_impl; [intros f; apply downloadable_shown |].
  apply (registry_invariant (Forall downloadable) (fun p => objectURL p <> ""%string))
    with (queues := []).
  - intros fs sel w H. apply Forall_app. split; [exact H |].
    eapply Forall_impl; [| apply createJobs_fresh].
    intros j (Hs & _) Hc. congruence.
  - intros fs job q p Hp _ H. apply updateJob_Forall; [| exact H].
    intros f _. unfold downloadable.
    destruct (outcome (convertToWebP (originalFile job) q p)) as [url size |] eqn:Ho;
      simpl; [| discriminate].
    intros _. exists url. split; [reflexivity |].
    apply resolved_url in Ho. congruence.
  - intros fs target. apply filter_Forall.
  - constructor.
  - exact Hgood.
  - apply start_tracked.
  - constructor.
Qed.

Lemma download_button_in_sample_session :
  Forall (fun f => downloadShown f = true <-> status f = Converted)
         (files (world (performAll [Select [photo; scan]; Settle 0 workingPlatform]
                                   (start sampleRng)))).
Proof.
  apply (download_button_marks_converted_jobs sampleRng
           [Select [photo; scan]; Settle 0 workingPlatform]).
  repeat constructor. simpl. discriminate.
Defined.

(** *** A batch from submission to completion *)

Lemma batch_spawns_handler (selectedFiles : list File) (s : State)
      (job : ConvertedFile) (rest : list ConvertedFile) :
  newFilesOf selectedFiles (world s) = job :: rest ->
  files (world (perform (Select selectedFiles) s)) = files (world s) ++ job :: rest /\
  started (world (perform (Select selectedFiles) s))
    = started (world s) ++ [(originalFile job, quality (world s))] /\
  exists t,
    tasks (perform (Select selectedFiles) s) = tasks s ++ [t] /\
    Sequential t (job :: rest) (quality (world s)).
Proof.
  intros Hnew.
  assert (Himg : (List.length (imageFilesOf selectedFiles) =? 0)%nat = false).
  { unfold newFilesOf in Hnew.
    destruct (imageFilesOf selectedFiles); [discriminate Hnew | reflexivity]. }
  unfold perform, handleFilesSelected. rewrite Himg, Hnew.
  cbn [run forOf spawn fst snd world tasks].
  split; [reflexivity |]. split; [reflexivity |].
  eexists. split; [reflexivity |]. apply forOf_sequential.
Qed.

Lemma settleEach_map q turns fs :
  settleEach q turns fs = map (fun f => fold_left (settleOne q) turns f) fs.
Proof.
  revert fs. induction turns as [| turn rest IH]; intros fs; simpl.
  - symmetry. apply map_id.
  - unfold settleEach in *. simpl. rewrite IH. unfold updateJob.
    rewrite map_map. reflexivity.
Qed.

Lemma settleOne_keeps q turns f :
  id (fold_left (settleOne q) turns f) = id f /\
  originalFile (fold_left (settleOne q) turns f) = originalFile f /\
  (status f <> Converting -> status (fold_left (settleOne q) turns f) <> Converting).
Proof.
  revert f. induction turns as [| turn rest IH]; intros f; simpl; [auto |].
  destruct (IH (settleOne q f turn)) as (Hid & Hfile & Hstatus).
  rewrite Hid, Hfile. unfold settleOne in *.
  destruct (id f =? id (fst turn))%string.
  - destruct (outcomeOf q turn); simpl in *;
      (split; [reflexivity | split; [reflexivity |]]);
      intros _; apply Hstatus; discriminate.
  - auto.
Qed.

Lemma settleOne_terminal q turns f :
  In (id f) (map (fun turn => id (fst turn)) turns) ->
  status (fold_left (settleOne q) turns f) <> Converting.
Proof.
  revert f. induction turns as [| turn rest IH]; intros f Hin; [destruct Hin |].
  simpl. destruct (String.eqb_spec (id f) (id (fst turn))) as [E | Hne].
  - apply settleOne_keeps. unfold settleOne.
    rewrite E, String.eqb_refl. destruct (outcomeOf q turn); discriminate.
  - apply IH.
    destruct (settleOne_keeps q [turn] f) as (Hid & _). simpl in Hid. rewrite Hid.
    destruct Hin as [Hin | Hin]; [congruence | exact Hin].
Qed.

(** Settling the same handler once per job it serves applies the
    outcomes in order, starts each later job once, and ends the handler. *)
Lemma handler_runs_to_completion jobs :
  forall t q ps s before after,
    tasks s = before ++ t :: after ->
    Sequential t jobs q ->
    List.length ps = List.length jobs ->
    let s' := performAll (map (Settle (List.length before)) ps) s in
    tasks s' = before ++ after /\
    started (world s')
      = started (world s) ++ map (fun j => (originalFile j, q)) (tl jobs) /\
    files (world s') = settleEach q (combine jobs ps) (files (world s)).
Proof.
  induction jobs as [| job rest IH]; intros t q ps s before after Htasks Hseq Hlen;
    [destruct Hseq |].
  destruct ps as [| p ps]; [discriminate Hlen |].
  simpl in Hlen. injection Hlen as Hlen.
  destruct Hseq as (Hfile & Hq & Hresume).
  cbv zeta. cbn [map].
  change (performAll (Settle (List.length before) p :: ?l) s)
    with (performAll l (perform (Settle (List.length before) p) s)).
  assert (Hnth : nth_error (tasks s) (List.length before) = Some t).
  { rewrite Htasks, nth_error_app2, Nat.sub_diag by lia. reflexivity. }
  assert (Hfirst : firstn (List.length before) (tasks s) = before).
  { rewrite Htasks, firstn_app, Nat.sub_diag, firstn_all. simpl. apply app_nil_r. }
  assert (Hskip : skipn (S (List.length before)) (tasks s) = after).
  { rewrite Htasks, skipn_app, skipn_all2 by lia.
    replace (S (List.length before) - List.length before) with 1 by lia. reflexivity. }
  set (o := outcome (convertToWebP (originalFile job) q p)).
  assert (Hperform :
            perform (Settle (List.length before) p) s
            = continue (run (resume t o) (world s)) before after).
  { unfold perform. rewrite Hnth, Hfirst, Hskip, Hfile, Hq. reflexivity. }
  specialize (Hresume o (world s)).
  destruct rest as [| next rest].
  - destruct ps; [| discriminate Hlen].
    rewrite Hperform, Hresume. simpl. rewrite app_nil_r. auto.
  - destruct Hresume as (t' & Hrun & Hseq').
    rewrite Hperform, Hrun. unfold continue. cbn [fst snd].
    destruct (IH t' q ps
                 (mkState (convertStarted (originalFile next) q
                             (setFiles (updateJob (id job) o) (world s)))
                          (before ++ t' :: after))
                 before after eq_refl Hseq' Hlen) as (Ht & Hs & Hf).
    split; [exact Ht |]. split.
    + rewrite Hs. simpl. rewrite <- app_assoc. reflexivity.
    + rewrite Hf. reflexivity.
Qed.

(** X6. From any state, submitting a selection and then letting its handler
    settle once per accepted file, on whatever browsers, ends the handler
    and leaves the other handlers as they were; every accepted file's
    conversion was started exactly once, in selection order, at the
    quality of the moment of submission; the registry keeps the jobs it
    had, followed by the batch's jobs in selection order, none of them
    still converting. *)
Theorem batch_runs_to_completion
        (s : State) (selectedFiles : list File) (ps : list Platform) :
  List.length ps = List.length (imageFilesOf selectedFiles) ->
  let s' := performAll (Select selectedFiles
                          :: map (Settle (List.length (tasks s))) ps) s in
  tasks s' = tasks s /\
  started (world s')
    = started (world s)
      ++ map (fun file => (file, quality (world s))) (imageFilesOf selectedFiles) /\
  exists old new,
    files (world s') = old ++ new /\
    map id old = map id (files (world s)) /\
    map originalFile old = map originalFile (files (world s)) /\
    map originalFile new = imageFilesOf selectedFiles /\
    Forall (fun f => status f <> Converting) new.
Proof.
  intros Hlen s'. subst s'.
  change (performAll (Select selectedFiles :: ?l) s)
    with (performAll l (perform (Select selectedFiles) s)).
  destruct (newFilesOf selectedFiles (world s)) as [| job rest] eqn:Hnew.
  - (* no image: nothing happens *)
    pose proof (newFiles_length selectedFiles (world s)) as Hn.
    rewrite Hnew in Hn. simpl in Hn.
    destruct (imageFilesOf selectedFiles) eqn:Himg; [| discriminate Hn].
    destruct ps; [| discriminate Hlen].
    destruct (select_appends_image_jobs_files selectedFiles s) as [_ Hsame].
    rewrite (Hsame Himg). simpl. rewrite app_nil_r.
    split; [reflexivity |]. split; [reflexivity |].
    exists (files (world s)), []. rewrite app_nil_r. repeat split. constructor.
  - destruct (batch_spawns_handler selectedFiles s job rest Hnew)
      as (Hfiles & Hstarted & t & Htasks & Hseq).
    pose proof (newFiles_length selectedFiles (world s)) as Hn. rewrite Hnew in Hn.
    assert (Hps : List.length ps = List.length (job :: rest)) by congruence.
    destruct (handler_runs_to_completion (job :: rest) t (quality (world s)) ps
                (perform (Select selectedFiles) s) (tasks s) [] Htasks Hseq Hps)
      as (Ht & Hs & Hf).
    split; [rewrite Ht; apply app_nil_r |]. split.
    + rewrite Hs, Hstarted, <- app_assoc. f_equal.
      rewrite <- (createJobs_originalFile (rng (world s)) (randomCalls (world s))
                    (imageFilesOf selectedFiles)).
      fold (newFilesOf selectedFiles (world s)). rewrite Hnew.
      simpl. rewrite map_map. reflexivity.
    + rewrite Hf, Hfiles, settleEach_map, map_app.
      eexists _, _. split; [reflexivity |].
      assert (Hkeep : forall fs,
                 map id (map (fun f => fold_left (settleOne (quality (world s)))
                                                  (combine (job :: rest) ps) f) fs)
                 = map id fs /\
                 map originalFile
                     (map (fun f => fold_left (settleOne (quality (world s)))
                                              (combine (job :: rest) ps) f) fs)
                 = map originalFile fs).
      { intros fs. rewrite !map_map. split; apply map_ext; intros f; apply settleOne_keeps. }
      split; [apply Hkeep |]. split; [apply Hkeep |]. split.
      * destruct (Hkeep (job :: rest)) as [_ ->].
        rewrite <- Hnew. apply createJobs_originalFile.
      * apply Forall_forall. intros f Hin.
        apply in_map_iff in Hin. destruct Hin as (j & <- & Hj).
        apply settleOne_terminal.
        replace (map (fun turn => id (fst turn)) (combine (job :: rest) ps))
          with (map id (job :: rest)).
        { apply in_map. exact Hj. }
        clear - Hps. revert Hps. generalize (job :: rest) as js. revert ps.
        induction ps as [| p ps IH]; intros [| j js] Hps; try discriminate; [reflexivity |].
        simpl. f_equal. apply IH. simpl in Hps. lia.
Qed.

Lemma sample_batch_runs_to_completion :
  started (world (performAll
     (Select [photo; notes; scan]
        :: map (Settle 0) [workingPlatform; mkPlatform false true None (fun _ _ => None) ""])
     (start sampleRng)))
  = [(photo, 85%Z); (scan, 85%Z)].
Proof.
  apply (batch_runs_to_completion (start sampleRng) [photo; notes; scan]
           [workingPlatform; mkPlatform false true None (fun _ _ => None) ""]).
  reflexivity.
Defined.

(** X7. Moving the slider while a batch is converting does not reach that
    batch: its next conversion still starts at the quality of the moment
    of submission, although the session's quality is the new one. *)
Theorem slider_does_not_reach_a_running_batch
        (s : State) (selectedFiles : list File)
        (job next : ConvertedFile) (rest : list ConvertedFile)
        (q' : Z) (p : Platform) :
  newFilesOf selectedFiles (world s) = job :: next :: rest ->
  let s' := performAll [Select selectedFiles; SetQuality q';
                        Settle (List.length (tasks s)) p] s in
  quality (world s') = q' /\
  started (world s')
    = started (world s)
      ++ [(originalFile job, quality (world s)); (originalFile next, quality (world s))].
Proof.
  intros Hnew. cbv zeta.
  destruct (batch_spawns_handler selectedFiles s job (next :: rest) Hnew)
    as (_ & Hstarted & t & Htasks & Hseq).
  unfold performAll. cbn [fold_left].
  set (s1 := perform (Select selectedFiles) s) in *.
  set (s2 := perform (SetQuality q') s1).
  assert (Hnth : nth_error (tasks s2) (List.length (tasks s)) = Some t).
  { change (tasks s2) with (tasks s1).
    rewrite Htasks, nth_error_app2, Nat.sub_diag by lia. reflexivity. }
  destruct (settle_starts_next s2 _ p t job next rest _ Hnth Hseq) as [_ Hs].
  split.
  - destruct Hseq as (Hfile & Hq & Hresume).
    unfold perform at 1. rewrite Hnth, world_continue.
    destruct (Hresume (outcome (convertToWebP (awaitedFile t) (awaitedQuality t) p))
                      (world s2)) as (t' & -> & _).
    reflexivity.
  - rewrite Hs. change (started (world s2)) with (started (world s1)).
    rewrite Hstarted, <- app_assoc. reflexivity.
Qed.

Lemma slider_moved_during_sample_batch :
  quality (world (performAll [Select [photo; scan]; SetQuality 10; Settle 0 workingPlatform]
                             (start sampleRng))) = 10%Z /\
  started (world (performAll [Select [photo; scan]; SetQuality 10; Settle 0 workingPlatform]
                             (start sampleRng)))
  = [(photo, 85%Z); (scan, 85%Z)].
Proof.
  apply (slider_does_not_reach_a_running_batch (start sampleRng) [photo; scan]
           (newJob (sampleRng 0) photo) (newJob (sampleRng 1) scan) [] 10 workingPlatform).
  reflexivity.
Defined.

(** *** Releasing output handles, in general *)

Lemma releases_app url w extra :
  count_occ string_dec (revoked w ++ extra) url
  = releases url w + count_occ string_dec extra url.
Proof. unfold releases. apply count_occ_app. Qed.

Lemma held_is_counted (fs : list ConvertedFile) f url :
  In f fs -> In url (heldUrl f) ->
  1 <= count_occ string_dec (flat_map heldUrl fs) url.
Proof.
  intros Hf Hurl.
  assert (Hin : In url (flat_map heldUrl fs)) by (apply in_flat_map; eauto).
  apply (count_occ_In string_dec) in Hin. lia.
Qed.

(** X9. Clean All empties the registry and revokes every handle the registry
    held at least twice; unmounting revokes every held handle once more,
    and nothing at all right after Clean All. *)
Theorem cleanAll_and_unmount_release (w : World) (f : ConvertedFile) (url : string) :
  In f (files w) -> In url (heldUrl f) ->
  files (cleanAll w) = [] /\
  2 + releases url w <= releases url (cleanAll w) /\
  1 + releases url w <= releases url (unmount w) /\
  revoked (unmount (cleanAll w)) = revoked (cleanAll w).
Proof.
  intros Hf Hurl. pose proof (held_is_counted _ f url Hf Hurl) as Hheld.
  split; [reflexivity |]. split; [| split].
  - unfold releases at 2, cleanAll. simpl.
    rewrite !count_occ_app. unfold releases. lia.
  - unfold releases at 2, unmount. simpl. rewrite count_occ_app. unfold releases. lia.
  - simpl. apply app_nil_r.
Qed.

Lemma cleanAll_of_converted_photo :
  files (cleanAll (world photoConverted)) = [] /\
  2 + releases "blob:0" (world photoConverted)
  <= releases "blob:0" (cleanAll (world photoConverted)) /\
  1 + releases "blob:0" (world photoConverted)
  <= releases "blob:0" (unmount (world photoConverted)) /\
  revoked (unmount (cleanAll (world photoConverted)))
  = revoked (cleanAll (world photoConverted)).
Proof.
  apply (cleanAll_and_unmount_release (world photoConverted)
           (mkConvertedFile "4fzyo82mv" photo "image/png" Converted
                            (Some "blob:0") (Some 1234%N) None) "blob:0").
  - left. reflexivity.
  - left. reflexivity.
Defined.

Lemma removal_of_converted_photo :
  2 + releases "blob:0" (world photoConverted)
  <= releases "blob:0" (removeFile "4fzyo82mv" (world photoConverted)).
Proof.
  apply (removeFile_releases_twice
           (mkConvertedFile "4fzyo82mv" photo "image/png" Converted
                            (Some "blob:0") (Some 1234%N) None)
           "blob:0" (world photoConverted)); reflexivity.
Defined.

Lemma revoked_removeFile target w :
  exists extra,
    revoked (removeFile target w)
    = revoked w ++ extra ++ flat_map heldUrl (files w).
Proof.
  unfold removeFile. destruct (find _ (files w)) as [f |].
  - exists (heldUrl f). simpl. rewrite app_nil_r, app_assoc. reflexivity.
  - exists []. reflexivity.
Qed.

Lemma revoked_select selectedFiles w others :
  imageFilesOf selectedFiles <> [] ->
  revoked (world (perform (Select selectedFiles) (mkState w others)))
  = revoked w ++ flat_map heldUrl (files w).
Proof.
  intros Himg. unfold perform, handleFilesSelected, newFilesOf. cbn [world tasks].
  destruct (imageFilesOf selectedFiles) as [| file rest]; [contradiction |].
  reflexivity.
Qed.

(** X8. When the user removes a job (whichever id is given), presses
    Clean All, or selects at least one image, [URL.revokeObjectURL] is
    called at least once for every handle that the rendered registry
    holds, also for the handles of jobs that stay listed. *)
Theorem user_actions_revoke_listed_handles
        (w : World) (others : list Task) (f : ConvertedFile) (url : string) :
  In f (files w) -> In url (heldUrl f) ->
  (forall target, 1 + releases url w <= releases url (removeFile target w)) /\
  1 + releases url w <= releases url (cleanAll w) /\
  (forall selectedFiles,
     imageFilesOf selectedFiles <> [] ->
     1 + releases url w
     <= releases url (world (perform (Select selectedFiles) (mkState w others)))).
Proof.
  intros Hf Hurl. pose proof (held_is_counted _ f url Hf Hurl) as Hheld.
  split; [| split].
  - intros target. destruct (revoked_removeFile target w) as [extra Hrev].
    unfold releases at 2. rewrite Hrev, releases_app, count_occ_app. lia.
  - unfold releases at 2, cleanAll. simpl.
    rewrite !count_occ_app. unfold releases. lia.
  - intros selectedFiles Himg. unfold releases at 2.
    rewrite (revoked_select selectedFiles w others Himg), releases_app. lia.
Qed.

Lemma listed_handle_is_revoked_by_next_selection :
  1 + releases "blob:0" (world photoConverted)
  <= releases "blob:0" (world (perform (Select [scan]) photoConverted)).
Proof.
  destruct (user_actions_revoke_listed_handles (world photoConverted) []
              (mkConvertedFile "4fzyo82mv" photo "image/png" Converted
                               (Some "blob:0") (Some 1234%N) None) "blob:0")
    as (_ & _ & Hselect).
  - left. reflexivity.
  - left. reflexivity.
  - apply (Hselect [scan]). discriminate.
Defined.

(** *** Every job is converted once *)

Lemma waiting_app q1 q2 : waiting (q1 ++ q2) = waiting q1 ++ waiting q2.
Proof. apply flat_map_app. Qed.

(** One action keeps every handler serving a queue; the files started or
    waiting afterwards are those started or waiting before together with
    the files of the jobs the action creates. *)
Lemma perform_accounted (a : Action) (s : State) queues :
  Forall2 Serves (tasks s) queues ->
  exists queues',
    Forall2 Serves (tasks (perform a s)) queues' /\
    Permutation
      (map fst (started (world (perform a s))) ++ waiting queues')
      (map fst (started (world s)) ++ waiting queues
         ++ map originalFile (createdByAction a s)).
Proof.
  intros Hserve.
  destruct a as [selectedFiles | n p | target | | q].
  - (* Select *)
    cbn [createdByAction].
    pose proof (newFiles_imageJobs selectedFiles (world s)) as Himg.
    destruct (newFilesOf selectedFiles (world s)) as [| job rest] eqn:Hnew.
    + pose proof (newFiles_length selectedFiles (world s)) as Hn.
      rewrite Hnew in Hn. simpl in Hn.
      destruct (imageFilesOf selectedFiles) eqn:E; [| discriminate Hn].
      destruct (select_appends_image_jobs_files selectedFiles s) as [_ Hsame].
      rewrite (Hsame E). exists queues. split; [exact Hserve |].
      simpl. rewrite app_nil_r. apply Permutation_refl.
    + destruct (batch_spawns_handler selectedFiles s job rest Hnew)
        as (_ & Hstarted & t & Htasks & Hseq).
      exists (queues ++ [job :: rest]). split.
      * rewrite Htasks. apply Forall2_app; [exact Hserve |].
        constructor; [| constructor].
        split; [eexists; exact Hseq | exact Himg].
      * rewrite Hstarted, map_app, waiting_app, <- app_assoc.
        apply Permutation_app_head. simpl. rewrite app_nil_r.
        apply Permutation_middle.
  - (* Settle *)
    cbn [createdByAction map]. rewrite app_nil_r.
    unfold perform.
    destruct (nth_error (tasks s) n) as [t |] eqn:Hnth.
    2:{ exists queues. split; [exact Hserve | apply Permutation_refl]. }
    destruct (Forall2_nth_error_l _ _ _ _ _ Hserve Hnth) as (jobs & Hq & [[q Hseq] Himg]).
    pose proof (nth_error_split_at _ _ _ Hq) as Hsplit.
    pose proof (Forall2_firstn _ n _ _ Hserve) as Hfirst.
    pose proof (Forall2_skipn _ (S n) _ _ Hserve) as Hskip.
    remember (firstn n queues) as front eqn:Hfront.
    remember (skipn (S n) queues) as back eqn:Hback.
    clear Hfront Hback.
    destruct jobs as [| job rest]; [destruct Hseq |].
    destruct Hseq as (Hfile & Hquality & Hresume).
    specialize (Hresume (outcome (convertToWebP (awaitedFile t) (awaitedQuality t) p))
                        (world s)).
    pose proof (Forall_inv_tail Himg) as Hrest.
    destruct rest as [| next rest].
    + rewrite Hresume. unfold continue. cbn [fst snd world tasks].
      exists (front ++ back). split.
      * apply Forall2_app; assumption.
      * rewrite Hsplit, !waiting_app. simpl. apply Permutation_refl.
    + destruct Hresume as (t' & Hrun & Hseq').
      rewrite Hrun. unfold continue. cbn [fst snd world tasks].
      exists (front ++ (next :: rest) :: back). split.
      * apply Forall2_app; [exact Hfirst |].
        constructor; [| exact Hskip].
        split; [exists q; exact Hseq' | exact Hrest].
      * rewrite Hsplit, !waiting_app. simpl.
        rewrite map_app, <- app_assoc. apply Permutation_app_head.
        simpl. apply Permutation_middle.
  - exists queues. split; [exact Hserve |].
    simpl. rewrite app_nil_r. unfold removeFile.
    destruct (find _ (files (world s))); apply Permutation_refl.
  - exists queues. split; [exact Hserve |].
    simpl. rewrite app_nil_r. apply Permutation_refl.
  - exists queues. split; [exact Hserve |].
    simpl. rewrite app_nil_r. apply Permutation_refl.
Qed.

Lemma performAll_accounted (script : list Action) :
  forall s queues,
    Forall2 Serves (tasks s) queues ->
    exists queues',
      Forall2 Serves (tasks (performAll script s)) queues' /\
      Permutation
        (map fst (started (world (performAll script s))) ++ waiting queues')
        (map fst (started (world s)) ++ waiting queues
           ++ map originalFile (createdBy script s)).
Proof.
  induction script as [| a rest IH]; intros s queues Hserve.
  - exists queues. split; [exact Hserve |]. simpl. rewrite app_nil_r.
    apply Permutation_refl.
  - destruct (perform_accounted a s queues Hserve) as (queues1 & Hserve1 & Hperm1).
    destruct (IH (perform a s) queues1 Hserve1) as (queues' & Hserve' & Hperm').
    exists queues'. split; [exact Hserve' |].
    change (performAll (a :: rest) s) with (performAll rest (perform a s)).
    eapply Permutation_trans; [exact Hperm' |].
    cbn [createdBy]. rewrite map_app, !app_assoc.
    apply Permutation_app_tail.
    rewrite <- !app_assoc. exact Hperm1.
Qed.

(** X5. In every state a session can reach, each handler in flight awaits
    the first job of a queue of jobs it still has to convert, and the
    files whose conversion was started, together with the files that
    wait in those queues behind the awaited ones, are the original files
    of all the jobs ever created, each as often as it was submitted.
    Once no handler is in flight, the conversions started are those of
    the created jobs, one for each. *)
Theorem each_job_is_converted_once (rng : nat -> string) (script : list Action) :
  let s := performAll script (start rng) in
  (exists queues,
     Forall2 Serves (tasks s) queues /\
     Permutation (map originalFile (createdBy script (start rng)))
                 (map fst (started (world s)) ++ waiting queues)) /\
  (tasks s = [] ->
   Permutation (map originalFile (createdBy script (start rng)))
               (map fst (started (world s)))).
Proof.
  intros s.
  destruct (performAll_accounted script (start rng) [] (Forall2_nil _))
    as (queues & Hserve & Hperm).
  fold s in Hserve, Hperm. simpl in Hperm.
  split.
  - exists queues. split; [exact Hserve | apply Permutation_sym; exact Hperm].
  - intros Hdone. rewrite Hdone in Hserve. inversion Hserve; subst.
    simpl in Hperm. rewrite app_nil_r in Hperm.
    apply Permutation_sym. exact Hperm.
Qed.

Lemma finished_session_converted_each_job :
  Permutation
    (map originalFile
         (createdBy [Select [photo; notes; scan]; Settle 0 workingPlatform;
                     Settle 0 workingPlatform] (start sampleRng)))
    (map fst (started (world (performAll
       [Select [photo; notes; scan]; Settle 0 workingPlatform; Settle 0 workingPlatform]
       (start sampleRng))))).
Proof.
  apply (each_job_is_converted_once sampleRng
           [Select [photo; notes; scan]; Settle 0 workingPlatform;
            Settle 0 workingPlatform]).
  reflexivity.
Defined.

End ReachableFacts.

(** ** The registry operations taken one by one *)

Module OperationFacts.
Import Pipeline Registry Session Samples Observations Invariants RegistryFacts.
Local Open Scope list_scope.

Lemma removeFile_files target w :
  files (removeFile target w)
  = filter (fun f => negb (id f =? target)%string) (files w).
Proof.
  unfold removeFile. destruct (find _ (files w)); reflexivity.
Qed.

Lemma filter_other_ids target fs :
  ~ In target (map id fs) ->
  filter (fun f => negb (id f =? target)%string) fs = fs.
Proof.
  induction fs as [| f fs IH]; intros Habsent; [reflexivity |].
  simpl in *. destruct (String.eqb_spec (id f) target) as [E | _].
  - exfalso. auto.
  - simpl. f_equal. apply IH. auto.
Qed.

(** X11. [removeFile] leaves the registry filtered: the jobs whose id is
    not the given one, in the order they had.  So every job that carries
    the id is gone, each other job is kept, the registry is as it was
    when no job carries the id, and removing twice is removing once. *)
Theorem removeFile_removes_exactly_the_id (target : string) (w : World) :
  files (removeFile target w)
    = filter (fun f => negb (id f =? target)%string) (files w) /\
  ~ In target (map id (files (removeFile target w))) /\
  (forall f, In f (files (removeFile target w)) <-> In f (files w) /\ id f <> target) /\
  (forall other, other <> target ->
     filter (fun f => id f =? other)%string (files (removeFile target w))
     = filter (fun f => id f =? other)%string (files w)) /\
  (~ In target (map id (files w)) -> files (removeFile target w) = files w) /\
  files (removeFile target (removeFile target w)) = files (removeFile target w).
Proof.
  rewrite !removeFile_files.
  assert (Hgone : ~ In target (map id (filter (fun f => negb (id f =? target)%string)
                                              (files w)))).
  { intros Hin. apply in_map_iff in Hin. destruct Hin as (f & Hid & Hf).
    apply filter_In in Hf. destruct Hf as [_ Hkeep].
    rewrite Hid, String.eqb_refl in Hkeep. discriminate. }
  split; [reflexivity |].
  split; [exact Hgone |]. split; [| split; [| split]].
  - intros f. rewrite filter_In. split; intros [Hin Hkeep]; split; try exact Hin.
    + intros E. rewrite E, String.eqb_refl in Hkeep. discriminate.
    + destruct (String.eqb_spec (id f) target); [contradiction | reflexivity].
  - intros other Hother. clear Hgone.
    induction (files w) as [| f fs IH]; [reflexivity |].
    simpl. destruct (String.eqb_spec (id f) target) as [E | Hne]; simpl.
    + destruct (String.eqb_spec (id f) other); [congruence | exact IH].
    + destruct (id f =? other)%string; [f_equal |]; exact IH.
  - apply filter_other_ids.
  - apply filter_other_ids. exact Hgone.
Qed.

Lemma removeFile_of_absent_id :
  ~ In "zzzzzzzzz" (map id (files (world photoConverted))) /\
  files (removeFile "zzzzzzzzz" (world photoConverted)) = files (world photoConverted).
Proof.
  split; [simpl; intros [H | []]; discriminate H |].
  destruct (removeFile_removes_exactly_the_id "zzzzzzzzz" (world photoConverted))
    as (_ & _ & _ & _ & Habsent & _).
  apply Habsent. simpl; intros [H | []]; discriminate H.
Defined.

Lemma settled_id o f : id (settled o f) = id f.
Proof. destruct o; reflexivity. Qed.

(** X12. Outcomes addressed to two different ids can be applied in either
    order: the registry ends up the same. *)
Theorem updates_of_different_ids_commute
        (target1 target2 : string) (o1 o2 : Outcome) (fs : list ConvertedFile) :
  target1 <> target2 ->
  updateJob target1 o1 (updateJob target2 o2 fs)
  = updateJob target2 o2 (updateJob target1 o1 fs).
Proof.
  intros Hne. unfold updateJob. rewrite !map_map. apply map_ext. intros f.
  destruct (String.eqb_spec (id f) target1) as [E1 | N1];
    destruct (String.eqb_spec (id f) target2) as [E2 | N2].
  - congruence.
  - rewrite settled_id.
    destruct (String.eqb_spec (id f) target2); [contradiction |].
    destruct (String.eqb_spec (id f) target1); [reflexivity | contradiction].
  - rewrite settled_id.
    destruct (String.eqb_spec (id f) target1); [contradiction |].
    destruct (String.eqb_spec (id f) target2); [reflexivity | contradiction].
  - destruct (String.eqb_spec (id f) target1); [contradiction |].
    destruct (String.eqb_spec (id f) target2); [contradiction | reflexivity].
Qed.

Lemma two_completions_in_either_order :
  updateJob "4fzyo82mv" (Resolved "blob:0" 1234)
    (updateJob "k3x9q0w7c" (Rejected None) (newFilesOf [photo; scan] (initial sampleRng)))
  = updateJob "k3x9q0w7c" (Rejected None)
      (updateJob "4fzyo82mv" (Resolved "blob:0" 1234)
         (newFilesOf [photo; scan] (initial sampleRng))).
Proof.
  apply (updates_of_different_ids_commute "4fzyo82mv" "k3x9q0w7c").
  discriminate.
Defined.

(** X13. A removal and the arrival of an outcome, for the same id or for
    different ones, leave the same registry in either order. *)
Theorem removal_commutes_with_update
        (removed target : string) (o : Outcome) (w : World) :
  files (removeFile removed (setFiles (updateJob target o) w))
  = files (setFiles (updateJob target o) (removeFile removed w)).
Proof.
  rewrite removeFile_files. cbn [setFiles revokeAll files].
  rewrite removeFile_files. unfold updateJob.
  induction (files w) as [| f fs IH]; [reflexivity |].
  simpl.
  assert (Hid : id (if (id f =? target)%string then settled o f else f) = id f).
  { destruct (id f =? target)%string; [apply settled_id | reflexivity]. }
  rewrite Hid. destruct (id f =? removed)%string; simpl; [exact IH |].
  f_equal. exact IH.
Qed.

(** X14. An update keeps the length of the registry, the ids and the original
    files; the jobs it changes are exactly those that carry the id, and
    each of them takes the outcome: converted with the URL and the size,
    or failed with the message ("Unknown error" when the rejection has
    none). *)
Theorem updateJob_touches_only_the_id
        (target : string) (o : Outcome) (fs : list ConvertedFile) (n : nat)
        (f : ConvertedFile) :
  nth_error fs n = Some f ->
  List.length (updateJob target o fs) = List.length fs /\
  (id f <> target -> nth_error (updateJob target o fs) n = Some f) /\
  (id f = target ->
   exists g, nth_error (updateJob target o fs) n = Some g /\
             id g = id f /\ originalFile g = originalFile f /\
             match o with
             | Resolved url size =>
                 status g = Converted /\ convertedUrl g = Some url /\
                 convertedSize g = Some size
             | Rejected (Some message) => status g = Error /\ error g = Some message
             | Rejected None => status g = Error /\ error g = Some "Unknown error"%string
             end).
Proof.
  intros Hnth. unfold updateJob. split; [apply length_map |].
  rewrite nth_error_map, Hnth. simpl. split.
  - intros Hne. destruct (String.eqb_spec (id f) target); [contradiction | reflexivity].
  - intros E. subst target. rewrite String.eqb_refl. eexists. split; [reflexivity |].
    destruct o as [url size | [message |]]; simpl; repeat split; reflexivity.
Qed.

Lemma failed_update_of_sample_job :
  exists g,
    nth_error (updateJob "4fzyo82mv" (Rejected None)
                         (newFilesOf [photo; scan] (initial sampleRng))) 0 = Some g /\
    id g = "4fzyo82mv"%string /\ originalFile g = photo /\
    status g = Error /\ error g = Some "Unknown error"%string.
Proof.
  apply (updateJob_touches_only_the_id "4fzyo82mv" (Rejected None)
           (newFilesOf [photo; scan] (initial sampleRng)) 0
           (newJob (sampleRng 0) photo)); reflexivity.
Defined.

End OperationFacts.

(** ** More on the size formatter *)

Module FormatMoreFacts.
Import Format Observations FormatFacts.

Lemma showHundredths_whole (n : N) : showHundredths (100 * n) = decimal n.
Proof.
  unfold showHundredths.
  rewrite (N.mul_comm 100 n), N.div_mul, N.Div0.mod_mul by discriminate.
  reflexivity.
Qed.

Lemma toFixed2_whole (n den : N) :
  (0 < den)%N -> toFixed2 (n * den) den = (100 * n)%N.
Proof.
  intros Hden. unfold toFixed2. symmetry.
  apply (N.div_unique _ _ _ den); nia.
Qed.

Lemma unitIndex_whole (n : N) (i : nat) :
  (1 <= n < 1024)%N -> unitIndex (n * k ^ N.of_nat i) = i.
Proof.
  intros [Hlo Hhi]. unfold unitIndex.
  assert (Hk : (k ^ N.of_nat i = 2 ^ (10 * N.of_nat i))%N).
  { rewrite N.pow_mul_r. reflexivity. }
  rewrite Hk, N.log2_mul_pow2 by lia.
  assert (Hlog : (N.log2 n < 10)%N) by (apply N.log2_lt_pow2; [lia | exact Hhi]).
  assert (Hdiv : ((10 * N.of_nat i + N.log2 n) / 10 = N.of_nat i)%N).
  { symmetry. apply (N.div_unique _ _ _ (N.log2 n)); [exact Hlog | reflexivity]. }
  rewrite Hdiv. apply Nat2N.id.
Qed.

(** X15. A whole number [n] (from 1 to 1023) of bytes, KB, MB or GB is shown
    as that number and that unit, nothing rounded; beyond GB the number is
    still exact and the unit reads "undefined". *)
Theorem whole_multiples_are_shown_exactly (n : N) (i : nat) :
  (1 <= n < 1024)%N ->
  formatFileSize (n * 1024 ^ N.of_nat i) = decimal n ++ " " ++ unitText i.
Proof.
  intros Hn. change 1024%N with k.
  pose proof (k_pow_pos i) as Hpos.
  unfold formatFileSize.
  destruct (N.eqb_spec (n * k ^ N.of_nat i) 0) as [E | _]; [nia |].
  cbv zeta. rewrite (unitIndex_whole n i Hn), toFixed2_whole by exact Hpos.
  rewrite showHundredths_whole. reflexivity.
Qed.

Lemma seven_megabytes_shown_exactly :
  (1 <= 7 < 1024)%N /\ formatFileSize (7 * 1024 ^ 2) = "7 MB".
Proof.
  split; [lia |].
  apply (whole_multiples_are_shown_exactly 7 2). lia.
Defined.

Lemma bytes_below_1024_unrounded (bytes : N) :
  (1 <= bytes < 1024)%N -> formatFileSize bytes = decimal bytes ++ " B".
Proof.
  intros Hb. unfold formatFileSize.
  destruct (N.eqb_spec bytes 0) as [E | _]; [lia |].
  cbv zeta.
  pose proof (unitIndex_whole bytes 0 Hb) as Hi.
  pose proof (toFixed2_whole bytes 1 ltac:(lia)) as Hf.
  simpl in Hi. rewrite N.mul_1_r in Hi, Hf.
  rewrite Hi. change (k ^ N.of_nat 0)%N with 1%N. rewrite Hf, showHundredths_whole.
  reflexivity.
Qed.

(** X16. A size below 1024 bytes is shown as its exact number of bytes, 0
    included. *)
Theorem small_sizes_are_shown_in_bytes (bytes : N) :
  (bytes < 1024)%N -> formatFileSize bytes = decimal bytes ++ " B".
Proof.
  intros Hlt. destruct (N.eq_dec bytes 0) as [-> | Hne]; [reflexivity |].
  pose proof (bytes_below_1024_unrounded bytes) as H.
  apply H. lia.
Qed.

Lemma size_of_999_bytes :
  (999 < 1024)%N /\ formatFileSize 999 = "999 B".
Proof.
  split; [reflexivity |].
  apply (small_sizes_are_shown_in_bytes 999). reflexivity.
Defined.

(** X17. The number in front of the unit is never below 1 and never above
    1024: just below a power of 1024 the rounding reaches 1024 of the
    smaller unit (1048575 bytes read "1024 KB", one byte more "1 MB"). *)
Theorem shown_number_is_between_1_and_1024 (bytes : N) :
  (0 < bytes)%N ->
  (exists h,
     (100 <= h <= 102400)%N /\
     formatFileSize bytes = showHundredths h ++ " " ++ unitText (unitIndex bytes)) /\
  formatFileSize 1048575 = "1024 KB" /\
  formatFileSize 1048576 = "1 MB".
Proof.
  intros Hpos. split; [| split; reflexivity].
  exists (toFixed2 bytes (k ^ N.of_nat (unitIndex bytes))). split.
  - destruct (unitIndex_spec bytes Hpos) as [Hlo Hhi].
    rewrite Nat2N.inj_succ, N.pow_succ_r' in Hhi.
    pose proof (k_pow_pos (unitIndex bytes)) as HK.
    set (K := (k ^ N.of_nat (unitIndex bytes))%N) in *.
    change k with 1024%N in Hhi.
    unfold toFixed2. split.
    + apply N.div_le_lower_bound; lia.
    + apply N.lt_succ_r. apply N.Div0.div_lt_upper_bound. lia.
  - unfold formatFileSize.
    destruct (N.eqb_spec bytes 0) as [-> | _]; [lia | reflexivity].
Qed.

Lemma shown_number_of_1500000_bytes :
  (0 < 1500000)%N /\
  exists h,
    (100 <= h <= 102400)%N /\
    formatFileSize 1500000 = showHundredths h ++ " " ++ unitText (unitIndex 1500000).
Proof.
  split; [reflexivity |].
  apply (shown_number_is_between_1_and_1024 1500000). reflexivity.
Defined.

End FormatMoreFacts.

(** ** More on the download name and the conversion *)

Module DownloadMoreFacts.
Import Download Pipeline Encoder Samples.
Local Open Scope list_scope.

Lemma split_shape (name : string) :
  exists base pieces,
    split "." name = base :: pieces /\
    hasDot base = false /\
    (name = base \/ exists rest, name = (base ++ String "." rest)%string).
Proof.
  induction name as [| c name (base & pieces & Hsplit & Hdot & Hname)].
  - exists EmptyString, []. auto.
  - simpl. destruct (Ascii.eqb_spec c ".") as [-> | Hc].
    + exists EmptyString, (split "." name). split; [reflexivity |].
      split; [reflexivity |]. right. exists name. reflexivity.
    + rewrite Hsplit. exists (String c base), pieces. split; [reflexivity |].
      split.
      * simpl. rewrite Hdot.
        destruct (Ascii.eqb_spec c "."); [contradiction | reflexivity].
      * destruct Hname as [-> | [rest ->]]; [left | right; exists rest]; reflexivity.
Qed.

(** X18. The download name of any original name is the part of the name in
    front of its first dot (the whole name when it has no dot, nothing
    when it starts with a dot) followed by ".webp"; the part kept never
    contains a dot. *)
Theorem downloadName_keeps_what_precedes_the_first_dot (name : string) :
  exists base,
    downloadName name = (base ++ ".webp")%string /\
    hasDot base = false /\
    (name = base \/ exists rest, name = (base ++ String "." rest)%string).
Proof.
  destruct (split_shape name) as (base & pieces & Hsplit & Hdot & Hname).
  exists base. unfold downloadName. rewrite Hsplit. auto.
Qed.

(** X19. A conversion resolves exactly when the file's type starts with
    "image/", the image loads, a 2d context exists, drawing does not throw
    and the encoder hands back a blob for "image/webp" at the effective
    quality; it then carries the browser's object URL and the blob's
    size.  A file of another type is rejected as unsupported whatever the
    browser would do, and the encoder is not reached. *)
Theorem convertToWebP_resolves_iff
        (file : File) (quality : Z) (p : Platform) (url : string) (size : N) :
  (outcome (convertToWebP file quality p) = Resolved url size <->
   isImage file = true /\ imageLoads p = true /\ context2d p = true /\
   drawThrows p = None /\
   toBlob p "image/webp" (effectiveQuality quality) = Some size /\
   objectURL p = url) /\
  (isImage file = false ->
   convertToWebP file quality p
   = mkConversion (Rejected (Some "Unsupported file format"%string)) []).
Proof.
  unfold convertToWebP. split.
  - destruct (isImage file), (imageLoads p), (context2d p); simpl;
      try (split; [discriminate | intros (? & ? & ? & _); discriminate]).
    destruct (drawThrows p) as [thrown |]; simpl.
    + split; [discriminate | intros (_ & _ & _ & H & _); discriminate H].
    + destruct (toBlob p "image/webp" (effectiveQuality quality)) as [blobSize |]; simpl.
      * split.
        -- intros H. injection H as <- <-. auto 10.
        -- intros (_ & _ & _ & _ & H & <-). injection H as <-. reflexivity.
      * split; [discriminate | intros (_ & _ & _ & _ & H & _); discriminate H].
  - intros ->. reflexivity.
Qed.

Lemma conversion_of_sample_photo :
  outcome (convertToWebP photo 85 workingPlatform) = Resolved "blob:0" 1234 /\
  convertToWebP notes 85 workingPlatform
  = mkConversion (Rejected (Some "Unsupported file format"%string)) [].
Proof.
  destruct (convertToWebP_resolves_iff photo 85 workingPlatform "blob:0" 1234)
    as [[_ Hresolves] _].
  destruct (convertToWebP_resolves_iff notes 85 workingPlatform "blob:0" 1234)
    as [_ Hrejects].
  split; [apply Hresolves; repeat split | apply Hrejects; reflexivity].
Defined.

End DownloadMoreFacts.
